(** * Leader-follower analysis of minute bars: a shallow embedding

    The development follows [csv_based_leader_follower_analyzer.py] and
    [sector_leader_follower_analyzer.py], whose analysis methods
    ([load_data] from the trading-hours filter on, [calculate_price_movements],
    [identify_leader_signals], [analyze_leader_follower_relationships],
    [calculate_success_rates]) are the same text up to parameter defaults.

    Conventions of the embedding:
    - a pandas [Timestamp] is the number of seconds since the epoch, in [Z];
    - a float column is a rational ([Q]); a cell that pandas leaves as NaN is
      [None], and every comparison with NaN is [false], as in pandas; a
      quotient by zero is the [0] of [Q] (closes are positive in the data,
      so no statement below rests on it);
    - a DataFrame is the list of its rows, in row order;
    - [self] is a record that every method takes and returns. *)

From Stdlib Require Import List String ZArith QArith Qround Bool Lia.
From Stdlib Require Import Sorted Permutation OrderedTypeEx.
Import ListNotations.

Local Open Scope Z_scope.

(** ** Timestamps *)

Definition Timestamp : Type := Z.

Definition dt_date (t : Timestamp) : Z := t / 86400.
Definition dt_hour (t : Timestamp) : Z := (t mod 86400) / 3600.
Definition dt_minute (t : Timestamp) : Z := (t mod 3600) / 60.

(** [timedelta(minutes=m)] in seconds. *)
Definition timedelta_minutes (m : Z) : Z := 60 * m.

(** [(t2 - t1).total_seconds()]. *)
Definition total_seconds (t2 t1 : Timestamp) : Q := inject_Z (t2 - t1).

(** ** Rows *)

(** The columns read from the CSV files that the analysis uses. *)
Record Bar : Type := mkBar {
  symbol : string;
  datetime : Timestamp;
  close_price : Q;
  large_buy : Q;
  xlarge_buy : Q;
  large_sell : Q;
  xlarge_sell : Q
}.

(** The columns that [calculate_price_movements] adds ([return_5min] is
    written by the source and read nowhere; it is left out). *)
Record SeriesState : Type := mkSeries {
  return_1min : option Q;
  daily_high : Q;
  daily_low : Q;
  rolling_max_30min : Q;
  is_daily_high : bool;
  is_daily_low : bool;
  is_30min_high : bool;
  large_total_ma30 : Q
}.

(** One row of [self.data].  [series] is [None] as long as the columns of
    [calculate_price_movements] have not been assigned for the row. *)
Record Row : Type := mkRow {
  bar : Bar;
  large_net : Q;
  large_total : Q;
  series : option SeriesState;
  leader_signal : bool;
  enhanced_leader_signal : bool
}.

Definition row_symbol (r : Row) : string := symbol (bar r).
Definition row_datetime (r : Row) : Timestamp := datetime (bar r).
Definition row_close (r : Row) : Q := close_price (bar r).

(** ** Comparisons on float cells *)

Definition Qlt_bool (x y : Q) : bool := negb (Qle_bool y x).

(** [cell > y] on a cell that may be NaN. *)
Definition nan_gt (cell : option Q) (y : Q) : bool :=
  match cell with
  | Some x => Qlt_bool y x
  | None => false
  end.

Definition qmax (x y : Q) : Q := if Qle_bool x y then y else x.
Definition qmin (x y : Q) : Q := if Qle_bool x y then x else y.

Definition qsum (l : list Q) : Q := fold_left Qplus l 0%Q.

Definition qmean (l : list Q) : Q := (qsum l / inject_Z (Z.of_nat (List.length l)))%Q.

(** ** Sorting, as [sort_values] on several keys and [sorted] do it: stable *)

Section StableSort.
Context {A : Type} (leb : A -> A -> bool).

Fixpoint insert_sorted (x : A) (l : list A) : list A :=
  match l with
  | [] => [x]
  | y :: l' => if leb x y then x :: l else y :: insert_sorted x l'
  end.

Definition stable_sort (l : list A) : list A :=
  fold_right insert_sorted [] l.

End StableSort.

(** [unique()]: first occurrences, in order of appearance. *)
Section Unique.
Context {A : Type} (eqb : A -> A -> bool).

Fixpoint unique_from (seen l : list A) : list A :=
  match l with
  | [] => []
  | x :: l' =>
      if existsb (eqb x) seen then unique_from seen l'
      else x :: unique_from (x :: seen) l'
  end.

Definition unique (l : list A) : list A := unique_from [] l.

End Unique.

(** The order of [sort_values(['symbol', 'datetime'])]. *)
Definition symbol_datetime_leb (r1 r2 : Row) : bool :=
  match String.compare (row_symbol r1) (row_symbol r2) with
  | Lt => true
  | Eq => row_datetime r1 <=? row_datetime r2
  | Gt => false
  end.

(** ** Results kept by the analyzer *)

Record Pair : Type := mkPair {
  leader_symbol : string;
  follower_symbol : string;
  leader_time : Timestamp;
  follower_time : Timestamp;
  time_lag_minutes : Q;
  leader_close : Q;
  leader_large_total : Q;
  leader_large_net : Q;
  leader_return_1min : option Q;
  follower_base_price : Q;
  follower_trigger_price : Q;
  follower_gain_pct : Q;
  is_enhanced_signal : bool
}.

(** One row of a ranking table: the group key (one symbol, or leader and
    follower), the count column and the mean columns in source order. *)
Record RankRow : Type := mkRankRow {
  rank_key : list string;
  rank_count : Z;
  rank_means : list Q
}.

(** A value of the statistics dict. *)
Inductive StatVal : Type :=
| VCount (n : Z)
| VNum (q : Q)
| VTable (rows : list RankRow).

(** A Python dict with string keys, in insertion order. *)
Definition Dict (V : Type) : Type := list (string * V).

Fixpoint dict_get {V : Type} (k : string) (d : Dict V) : option V :=
  match d with
  | [] => None
  | (k', v) :: d' => if String.eqb k k' then Some v else dict_get k d'
  end.

(** [self.results]: each key is absent ([None]) until a method stores it. *)
Record Results : Type := mkResults {
  res_leader_signals : option (list Row);
  res_leader_follower_pairs : option (list Pair);
  res_statistics : option (Dict StatVal)
}.

Record Analyzer : Type := mkAnalyzer {
  data : list Row;
  stocks : list string;
  results : Results
}.

(** [__init__]. *)
Definition init_analyzer : Analyzer :=
  {| data := []; stocks := [];
     results := {| res_leader_signals := None;
                   res_leader_follower_pairs := None;
                   res_statistics := None |} |}.

(** ** [load_data], from the trading-hours filter on *)

Definition trading_mask (b : Bar) : bool :=
  let hour := dt_hour (datetime b) in
  let minute := dt_minute (datetime b) in
  ((hour =? 9) && (1 <=? minute))
  || ((10 <=? hour) && (hour <=? 12))
  || ((hour =? 13) && (minute <=? 30)).

Definition with_large_columns (b : Bar) : Row :=
  {| bar := b;
     large_net := ((large_buy b + xlarge_buy b) - (large_sell b + xlarge_sell b))%Q;
     large_total := (large_buy b + xlarge_buy b)%Q;
     series := None;
     leader_signal := false;
     enhanced_leader_signal := false |}.

(** [raw] is the concatenation of the frames read from disk, with the
    [datetime] column already parsed. *)
Definition load_data (raw : list Bar) (self : Analyzer) : Analyzer :=
  let kept := filter trading_mask raw in
  let rows := map with_large_columns kept in
  let sorted := stable_sort symbol_datetime_leb rows in
  {| data := sorted;
     stocks := stable_sort String.leb (unique String.eqb (map row_symbol sorted));
     results := results self |}.

(** ** [calculate_price_movements] *)

(** [self.data[self.data['symbol'] == sym]]. *)
Definition stock_data (sym : string) (d : list Row) : list Row :=
  filter (fun r => String.eqb (row_symbol r) sym) d.

(** [max()] and [min()] of a group or window.  Groups and windows with
    [min_periods=1] always hold the current row, so the empty case (NaN in
    pandas) does not arise. *)
Definition qmax_list (l : list Q) : Q :=
  match l with
  | [] => 0%Q
  | x :: xs => fold_left qmax xs x
  end.

Definition qmin_list (l : list Q) : Q :=
  match l with
  | [] => 0%Q
  | x :: xs => fold_left qmin xs x
  end.

(** [pct_change()] at a row: [hist] holds the rows before it, latest first. *)
Definition pct_change_at (hist : list Row) (r : Row) : option Q :=
  match hist with
  | [] => None
  | p :: _ => Some (row_close r / row_close p - 1)%Q
  end.

(** [rolling(window=w, min_periods=1)] at a row: the row and the at most
    [w - 1] rows before it, in row order. *)
Definition rolling_window (w : nat) (hist : list Row) (r : Row) : list Row :=
  rev (firstn w (r :: hist)).

(** The group of a row under [groupby(stock_data['datetime'].dt.date)]. *)
Definition same_day (all : list Row) (r : Row) : list Row :=
  filter (fun r' => dt_date (row_datetime r') =? dt_date (row_datetime r)) all.

(** The new columns of one row of [stock_data]: [all] is the whole of
    [stock_data], [hist] the rows before [r], latest first. *)
Definition series_at (all hist : list Row) (r : Row) : SeriesState :=
  let window := rolling_window 30 hist r in
  let dh := qmax_list (map row_close (same_day all r)) in
  let dl := qmin_list (map row_close (same_day all r)) in
  let rm := qmax_list (map row_close window) in
  {| return_1min := pct_change_at hist r;
     daily_high := dh;
     daily_low := dl;
     rolling_max_30min := rm;
     is_daily_high := Qle_bool dh (row_close r);
     is_daily_low := Qle_bool (row_close r) dl;
     is_30min_high := Qle_bool rm (row_close r);
     large_total_ma30 := qmean (map large_total window) |}.

Definition set_series (r : Row) (s : SeriesState) : Row :=
  {| bar := bar r;
     large_net := large_net r;
     large_total := large_total r;
     series := Some s;
     leader_signal := leader_signal r;
     enhanced_leader_signal := enhanced_leader_signal r |}.

Fixpoint with_series (all hist rest : list Row) : list Row :=
  match rest with
  | [] => []
  | r :: rest' => set_series r (series_at all hist r) :: with_series all (r :: hist) rest'
  end.

(** The body of the loop, on one [stock_data]. *)
Definition price_movements (sd : list Row) : list Row := with_series sd [] sd.

(** [self.data.loc[self.data['symbol'] == sym, stock_data.columns] = stock_data]:
    the rows of [sym] are overwritten, in row order, by the rows of [upd]. *)
Fixpoint loc_assign (sym : string) (d upd : list Row) : list Row :=
  match d with
  | [] => []
  | r :: d' =>
      if String.eqb (row_symbol r) sym then
        match upd with
        | u :: upd' => u :: loc_assign sym d' upd'
        | [] => r :: loc_assign sym d' []
        end
      else r :: loc_assign sym d' upd
  end.

(** One turn of the loop over [self.stocks]. *)
Definition assign_price_movements (d : list Row) (sym : string) : list Row :=
  loc_assign sym d (price_movements (stock_data sym d)).

Definition calculate_price_movements (self : Analyzer) : Analyzer :=
  {| data := fold_left assign_price_movements (stocks self) (data self);
     stocks := stocks self;
     results := results self |}.

(** ** [identify_leader_signals] *)

Definition col_large_total_ma30 (r : Row) : option Q :=
  option_map large_total_ma30 (series r).

Definition col_return_1min (r : Row) : option Q :=
  match series r with
  | Some s => return_1min s
  | None => None
  end.

Definition col_is_daily_high (r : Row) : bool :=
  match series r with
  | Some s => is_daily_high s
  | None => false
  end.

Definition col_is_30min_high (r : Row) : bool :=
  match series r with
  | Some s => is_30min_high s
  | None => false
  end.

(** [cell * y] on a cell that may be NaN. *)
Definition nan_mul (cell : option Q) (y : Q) : option Q :=
  option_map (fun x => (x * y)%Q) cell.

(** [x > cell] on a cell that may be NaN. *)
Definition gt_nan (x : Q) (cell : option Q) : bool :=
  match cell with
  | Some y => Qlt_bool y x
  | None => false
  end.

Definition leader_signal_mask (money_multiplier min_amount min_price_change : Q)
    (r : Row) : bool :=
  gt_nan (large_total r) (nan_mul (col_large_total_ma30 r) money_multiplier)
  && Qlt_bool min_amount (large_total r)
  && Qlt_bool 0 (large_net r)
  && nan_gt (col_return_1min r) min_price_change
  && (col_is_daily_high r || col_is_30min_high r).

Definition enhanced_signal_mask (money_multiplier : Q) (r : Row) : bool :=
  leader_signal r
  && gt_nan (large_total r)
       (nan_mul (nan_mul (col_large_total_ma30 r) money_multiplier) (3 # 2))
  && col_is_daily_high r.

Definition set_leader_signal (r : Row) (b : bool) : Row :=
  {| bar := bar r;
     large_net := large_net r;
     large_total := large_total r;
     series := series r;
     leader_signal := b;
     enhanced_leader_signal := enhanced_leader_signal r |}.

Definition set_enhanced_leader_signal (r : Row) (b : bool) : Row :=
  {| bar := bar r;
     large_net := large_net r;
     large_total := large_total r;
     series := series r;
     leader_signal := leader_signal r;
     enhanced_leader_signal := b |}.

Definition flag_row (money_multiplier min_amount min_price_change : Q) (r : Row) : Row :=
  let r1 := set_leader_signal r
              (leader_signal_mask money_multiplier min_amount min_price_change r) in
  set_enhanced_leader_signal r1 (enhanced_signal_mask money_multiplier r1).

Definition count_true (f : Row -> bool) (l : list Row) : Z :=
  Z.of_nat (List.length (filter f l)).

(** Returns [total_signals] and the analyzer with both flag columns set and
    [results['leader_signals']] stored. *)
Definition identify_leader_signals
    (money_multiplier min_amount min_price_change : Q) (self : Analyzer)
    : Z * Analyzer :=
  let d := map (flag_row money_multiplier min_amount min_price_change) (data self) in
  let total_signals :=
    fold_left (fun acc sym => acc + count_true leader_signal (stock_data sym d))
              (stocks self) 0 in
  (total_signals,
   {| data := d;
      stocks := stocks self;
      results := {| res_leader_signals := Some (filter leader_signal d);
                    res_leader_follower_pairs := res_leader_follower_pairs (results self);
                    res_statistics := res_statistics (results self) |} |}).

(** ** [analyze_leader_follower_relationships] *)

Definition gain_pct (base_price close : Q) : Q :=
  ((close - base_price) / base_price * 100)%Q.

(** [.iloc[-1]] of a frame that may be empty. *)
Fixpoint iloc_last {A : Type} (l : list A) : option A :=
  match l with
  | [] => None
  | [x] => Some x
  | _ :: l' => iloc_last l'
  end.

(** [.iloc[0]] of a frame that may be empty. *)
Definition iloc_first {A : Type} (l : list A) : option A :=
  match l with
  | [] => None
  | x :: _ => Some x
  end.

Definition follower_base_data (d : list Row) (follower : string) (signal_time : Timestamp)
    : list Row :=
  filter (fun r => String.eqb (row_symbol r) follower
                   && (row_datetime r <=? signal_time)) d.

Definition follower_window_data (d : list Row) (follower : string)
    (window_start window_end : Timestamp) : list Row :=
  filter (fun r => String.eqb (row_symbol r) follower
                   && (window_start <? row_datetime r)
                   && (row_datetime r <=? window_end)) d.

Definition significant_gains (min_gain base_price : Q) (window : list Row) : list Row :=
  filter (fun r => Qle_bool min_gain (gain_pct base_price (row_close r))) window.

(** The body of the inner loop: the pair appended for one signal and one
    follower symbol, or [None] where the source runs [continue] or finds no
    significant gain. *)
Definition match_follower (d : list Row) (max_lag_minutes : Z) (min_gain : Q)
    (signal : Row) (follower : string) : option Pair :=
  let signal_time := row_datetime signal in
  let window_start := signal_time in
  let window_end := signal_time + timedelta_minutes max_lag_minutes in
  if String.eqb follower (row_symbol signal) then None
  else
    match iloc_last (follower_base_data d follower signal_time) with
    | None => None
    | Some base_row =>
        let base_price := row_close base_row in
        let window := follower_window_data d follower window_start window_end in
        match iloc_first (significant_gains min_gain base_price window) with
        | None => None
        | Some first_gain =>
            Some {| leader_symbol := row_symbol signal;
                    follower_symbol := follower;
                    leader_time := signal_time;
                    follower_time := row_datetime first_gain;
                    time_lag_minutes :=
                      (total_seconds (row_datetime first_gain) signal_time / 60)%Q;
                    leader_close := row_close signal;
                    leader_large_total := large_total signal;
                    leader_large_net := large_net signal;
                    leader_return_1min := nan_mul (col_return_1min signal) 100;
                    follower_base_price := base_price;
                    follower_trigger_price := row_close first_gain;
                    follower_gain_pct := gain_pct base_price (row_close first_gain);
                    is_enhanced_signal := enhanced_leader_signal signal |}
        end
    end.

Definition option_to_list {A : Type} (o : option A) : list A :=
  match o with
  | Some x => [x]
  | None => []
  end.

(** The two nested loops: pairs are appended signal by signal and, for one
    signal, in the order of [self.stocks]. *)
Definition leader_follower_pairs (d : list Row) (stock_list : list string)
    (max_lag_minutes : Z) (min_gain : Q) : list Pair :=
  flat_map
    (fun signal =>
       flat_map
         (fun follower =>
            option_to_list (match_follower d max_lag_minutes min_gain signal follower))
         stock_list)
    (filter leader_signal d).

(** Returns the frame of pairs; it is stored in [results] only when it is
    not empty. *)
Definition analyze_leader_follower_relationships
    (max_lag_minutes : Z) (min_gain : Q) (self : Analyzer)
    : list Pair * Analyzer :=
  let pairs := leader_follower_pairs (data self) (stocks self) max_lag_minutes min_gain in
  match pairs with
  | [] => ([], self)
  | _ :: _ =>
      (pairs,
       {| data := data self;
          stocks := stocks self;
          results := {| res_leader_signals := res_leader_signals (results self);
                        res_leader_follower_pairs := Some pairs;
                        res_statistics := res_statistics (results self) |} |})
  end.

(** ** [calculate_success_rates] *)

(** Group keys are tuples of symbols, compared as Python compares tuples of
    strings. *)
Fixpoint key_compare (k1 k2 : list string) : comparison :=
  match k1, k2 with
  | [], [] => Eq
  | [], _ :: _ => Lt
  | _ :: _, [] => Gt
  | a :: k1', b :: k2' =>
      match String.compare a b with
      | Eq => key_compare k1' k2'
      | c => c
      end
  end.

Definition key_leb (k1 k2 : list string) : bool :=
  match key_compare k1 k2 with
  | Gt => false
  | _ => true
  end.

Definition key_ltb (k1 k2 : list string) : bool :=
  match key_compare k1 k2 with
  | Lt => true
  | _ => false
  end.

Definition key_eqb (k1 k2 : list string) : bool :=
  match key_compare k1 k2 with
  | Eq => true
  | _ => false
  end.

(** [round(2)]: to the nearest hundredth, halves to the even neighbour. *)
Definition round_half_even (q : Q) : Z :=
  let f := Qfloor q in
  match Qcompare (q - inject_Z f) (1 # 2) with
  | Lt => f
  | Gt => f + 1
  | Eq => if Z.even f then f else f + 1
  end.

Definition round2 (q : Q) : Q := (inject_Z (round_half_even (q * 100)) / 100)%Q.

(** [median()] of a column that is not empty. *)
Definition qmedian (l : list Q) : Q :=
  let s := stable_sort Qle_bool l in
  let n := List.length s in
  if Nat.even n
  then ((nth (n / 2 - 1) s 0 + nth (n / 2) s 0) / 2)%Q
  else nth (n / 2) s 0%Q.

(** [pairs_df.groupby(key).agg(...).round(2)]: one row per distinct key, keys
    ascending ([groupby] sorts them), with the group's row count and the
    rounded means of the columns [cols]. *)
Definition groupby_agg (key : Pair -> list string) (cols : list (Pair -> Q))
    (pairs : list Pair) : list RankRow :=
  map
    (fun k =>
       let g := filter (fun p => key_eqb (key p) k) pairs in
       {| rank_key := k;
          rank_count := Z.of_nat (List.length g);
          rank_means := map (fun col => round2 (qmean (map col g))) cols |})
    (stable_sort key_leb (unique key_eqb (map key pairs))).

(** [sort_values(count_column, ascending=False)] on one column runs the
    default [kind='quicksort'], which pandas documents as not stable: the
    rows come back rearranged with the counts from high to low, and the order
    of rows with equal counts is whatever the sorting routine leaves.  The
    interface says what every such routine guarantees. *)
Definition count_desc (a b : RankRow) : Prop := rank_count b <= rank_count a.

Record SortValues : Type := mkSortValues {
  sort_values_desc : list RankRow -> list RankRow;
  sort_values_perm : forall t, Permutation t (sort_values_desc t);
  sort_values_sorted : forall t, StronglySorted count_desc (sort_values_desc t)
}.

Definition leader_ranking (sv : SortValues) (pairs : list Pair) : list RankRow :=
  sort_values_desc sv
    (groupby_agg (fun p => [leader_symbol p])
       [time_lag_minutes; follower_gain_pct; leader_large_total] pairs).

Definition follower_ranking (sv : SortValues) (pairs : list Pair) : list RankRow :=
  sort_values_desc sv
    (groupby_agg (fun p => [follower_symbol p])
       [time_lag_minutes; follower_gain_pct] pairs).

Definition best_pairs (sv : SortValues) (pairs : list Pair) : list RankRow :=
  sort_values_desc sv
    (groupby_agg (fun p => [leader_symbol p; follower_symbol p])
       [time_lag_minutes; follower_gain_pct] pairs).

(** Returns the statistics dict; it is stored in [results] only on the path
    that builds it. *)
Definition calculate_success_rates (sv : SortValues) (pairs_df : list Pair)
    (self : Analyzer) : Dict StatVal * Analyzer :=
  match pairs_df with
  | [] => ([], self)
  | _ :: _ =>
      let stats : Dict StatVal :=
        [ ("total_pairs"%string, VCount (Z.of_nat (List.length pairs_df)));
          ("average_time_lag"%string, VNum (qmean (map time_lag_minutes pairs_df)));
          ("median_time_lag"%string, VNum (qmedian (map time_lag_minutes pairs_df)));
          ("average_follower_gain"%string, VNum (qmean (map follower_gain_pct pairs_df)));
          ("max_follower_gain"%string, VNum (qmax_list (map follower_gain_pct pairs_df)));
          ("leader_ranking"%string, VTable (leader_ranking sv pairs_df));
          ("follower_ranking"%string, VTable (follower_ranking sv pairs_df));
          ("best_pairs"%string, VTable (best_pairs sv pairs_df)) ] in
      (stats,
       {| data := data self;
          stocks := stocks self;
          results := {| res_leader_signals := res_leader_signals (results self);
                        res_leader_follower_pairs := res_leader_follower_pairs (results self);
                        res_statistics := Some stats |} |})
  end.

(** ** The routine behind [sort_values]

    [sort_values(column, ascending=False)] hands the column to pandas'
    [nargsort], which reverses it, calls numpy's
    [argsort(kind='quicksort')] and reverses the indexer it gets.  numpy's
    quicksort on an int64 column ([aquicksort_] of npysort/quicksort.cpp) is
    an introsort over the array of positions: median-of-three partitions
    while a range spans more than [SMALL_QUICKSORT] positions, insertion sort
    below that, heapsort for a range whose depth allowance is spent.  (A
    build of numpy that sorts with vector instructions leaves equal values
    in yet another order; none of the routines is stable.) *)


















(** ** The run: [load_data], then the four analysis methods in the order of
    [run_complete_analysis] *)

Record Params : Type := mkParams {
  money_multiplier : Q;
  min_amount : Q;
  min_price_change : Q;
  max_lag_minutes : Z;
  min_gain : Q
}.

(** The analyzer once the signals are flagged. *)
Definition flagged (raw : list Bar) (p : Params) : Analyzer :=
  snd (identify_leader_signals (money_multiplier p) (min_amount p) (min_price_change p)
         (calculate_price_movements (load_data raw init_analyzer))).

(** The frame of pairs of a run. *)
Definition run_pairs (raw : list Bar) (p : Params) : list Pair :=
  fst (analyze_leader_follower_relationships (max_lag_minutes p) (min_gain p)
         (flagged raw p)).

(** ** Vocabulary of the statements *)

(** Two rows of one symbol stand in time order. *)
Definition time_ordered (a b : Bar) : Prop :=
  symbol a = symbol b -> datetime a <= datetime b.

(** The invariant that [load_data] sets up and the later methods keep: the
    bars of every symbol stand in ascending time order. *)
Definition rows_sorted (d : list Row) : Prop :=
  StronglySorted time_ordered (map bar d).

(** What the inner loop body did when it appended a pair. *)
Record Matched (d : list Row) (lag : Z) (mg : Q) (signal : Row) (f : string)
    (p : Pair) (base_row first_gain : Row) : Prop := mkMatched {
  matched_other : f <> row_symbol signal;
  matched_base :
    iloc_last (follower_base_data d f (row_datetime signal)) = Some base_row;
  matched_first :
    iloc_first
      (significant_gains mg (row_close base_row)
         (follower_window_data d f (row_datetime signal)
            (row_datetime signal + timedelta_minutes lag)))
    = Some first_gain;
  matched_leader_symbol : leader_symbol p = row_symbol signal;
  matched_follower_symbol : follower_symbol p = f;
  matched_leader_time : leader_time p = row_datetime signal;
  matched_follower_time : follower_time p = row_datetime first_gain;
  matched_time_lag :
    time_lag_minutes p
    = (total_seconds (row_datetime first_gain) (row_datetime signal) / 60)%Q;
  matched_base_price : follower_base_price p = row_close base_row;
  matched_trigger_price : follower_trigger_price p = row_close first_gain;
  matched_gain :
    follower_gain_pct p = gain_pct (row_close base_row) (row_close first_gain)
}.

Definition minute_of_day (t : Timestamp) : Z := dt_hour t * 60 + dt_minute t.

(** The time of day of [t], to the minute, lies from 09:01 to 13:30. *)
Definition in_trading_hours (t : Timestamp) : Prop :=
  9 * 60 + 1 <= minute_of_day t <= 13 * 60 + 30.

(** The five conjuncts of the signal predicate, read on the columns of a
    row.  A comparison holds of a cell only when the cell has a value. *)
Definition LeaderConjuncts (mm ma mpc : Q) (r : Row) : Prop :=
  (exists ma30, col_large_total_ma30 r = Some ma30 /\ (ma30 * mm < large_total r)%Q)
  /\ (ma < large_total r)%Q
  /\ (0 < large_net r)%Q
  /\ (exists ret, col_return_1min r = Some ret /\ (mpc < ret)%Q)
  /\ (col_is_daily_high r = true \/ col_is_30min_high r = true).

(** The columns that [calculate_price_movements] computes with [pct_change]
    and [rolling]. *)
Definition trailing_columns (r : Row) : option Q * option Q * bool * option Q :=
  (col_return_1min r,
   option_map rolling_max_30min (series r),
   col_is_30min_high r,
   col_large_total_ma30 r).

(** The derived columns of the row of symbol [s] at time [t] in a run. *)
Definition series_at_time (raw : list Bar) (prm : Params) (s : string) (t : Timestamp)
    : option SeriesState :=
  match find (fun r => String.eqb (row_symbol r) s && (row_datetime r =? t))
             (data (flagged raw prm)) with
  | Some r => series r
  | None => None
  end.

(** The bars of an input up to time [t]. *)
Definition up_to (t : Timestamp) (raw : list Bar) : list Bar :=
  filter (fun b => datetime b <=? t) raw.

(** The rows of a frame up to minute [m], and the rows after it. *)
Definition rows_up_to (m : Timestamp) (l : list Row) : list Row :=
  filter (fun r => row_datetime r <=? m) l.

Definition rows_after (m : Timestamp) (l : list Row) : list Row :=
  filter (fun r => negb (row_datetime r <=? m)) l.

Definition count_geb (a b : RankRow) : bool := rank_count b <=? rank_count a.

(** Row [a] may stand before row [b]: its count is higher, or the counts are
    equal and its key is the smaller one. *)
Definition ranked_before (a b : RankRow) : Prop :=
  rank_count b < rank_count a
  \/ (rank_count a = rank_count b /\ key_compare (rank_key a) (rank_key b) = Lt).

Definition count_then_key_order (t : list RankRow) : Prop :=
  StronglySorted ranked_before t.

(** The number of pairs with key [k]. *)
Definition pairs_with_key (key : Pair -> list string) (k : list string)
    (pairs : list Pair) : Z :=
  Z.of_nat (List.length (filter (fun p => key_eqb (key p) k) pairs)).

(** The rows of a ranking table, for any sorting routine: the counts
    descend, there is one row for every key that occurs among the pairs and
    no other, and the count of a row is the number of pairs with its key. *)
Record Ranking (key : Pair -> list string) (pairs : list Pair) (t : list RankRow)
    : Prop := mkRanking {
  ranking_descends : StronglySorted count_desc t;
  ranking_keys_distinct : NoDup (map rank_key t);
  ranking_keys : forall k, In k (map rank_key t) <-> In k (map key pairs);
  ranking_counts : forall row, In row t ->
                     rank_count row = pairs_with_key key (rank_key row) pairs
}.

(** ** A worked run

    Leader A and follower B on one day.  A's flow and price break out at
    09:10.  B stands at 100.0 at 09:10 and reaches 100.3 at 09:15, 100.6 at
    09:18 and 101.5 at 09:25; its bar at 09:00 is outside trading hours. *)

Definition at_hm (h m : Z) : Timestamp := h * 3600 + m * 60.

Definition ex_raw : list Bar :=
  [ mkBar "B" (at_hm 9 25) (1015 # 10) 0 0 0 0;
    mkBar "A" (at_hm 9 10) 101 10000000 0 0 0;
    mkBar "B" (at_hm 9 15) (1003 # 10) 0 0 0 0;
    mkBar "B" (at_hm 9 0) 200 0 0 0 0;
    mkBar "A" (at_hm 9 9) 100 1000000 0 0 0;
    mkBar "B" (at_hm 9 10) 100 0 0 0 0;
    mkBar "B" (at_hm 9 18) (1006 # 10) 0 0 0 0 ].

(** The defaults of [sector_leader_follower_analyzer.py]. *)
Definition ex_params : Params :=
  {| money_multiplier := 13 # 10;
     min_amount := 5000000;
     min_price_change := 3 # 1000;
     max_lag_minutes := 30;
     min_gain := 1 # 2 |}.

Definition ex_pair : Pair :=
  {| leader_symbol := "A";
     follower_symbol := "B";
     leader_time := at_hm 9 10;
     follower_time := at_hm 9 18;
     time_lag_minutes := 480 # 60;
     leader_close := 101;
     leader_large_total := 10000000;
     leader_large_net := 10000000;
     leader_return_1min := Some (100 # 100);
     follower_base_price := 100;
     follower_trigger_price := 1006 # 10;
     follower_gain_pct := 600 # 1000;
     is_enhanced_signal := false |}.

(** The scenario of the specification: baseline 1,000,000, multiplier 1.3,
    floor 500,000; a minute with large total 1,400,000, net 200,000, return
    0.004 at the daily high is flagged; with return 0.002 it is not. *)
Definition ex_minute (ret : Q) : Row :=
  {| bar := mkBar "A" (at_hm 9 30) 50 1400000 0 1200000 0;
     large_net := 200000;
     large_total := 1400000;
     series := Some {| return_1min := Some ret;
                       daily_high := 50; daily_low := 49; rolling_max_30min := 50;
                       is_daily_high := true; is_daily_low := false;
                       is_30min_high := true;
                       large_total_ma30 := 1000000 |};
     leader_signal := false;
     enhanced_leader_signal := false |}.

(** Two days of input that agree up to 09:01: one ends there, the other has
    a higher close at 09:02, a third a lower close at 09:02. *)
Definition lookahead_short : list Bar :=
  [ mkBar "A" (at_hm 9 1) 100 0 0 0 0 ].

Definition lookahead_higher : list Bar :=
  lookahead_short ++ [ mkBar "A" (at_hm 9 2) 101 0 0 0 0 ].

Definition lookahead_lower : list Bar :=
  lookahead_short ++ [ mkBar "A" (at_hm 9 2) 99 0 0 0 0 ].

(** A multiplier below 1, with the other parameters of the worked run. *)
Definition ex_low_multiplier : Params :=
  {| money_multiplier := 1 # 2;
     min_amount := 5000000;
     min_price_change := 3 # 1000;
     max_lag_minutes := 30;
     min_gain := 1 # 2 |}.

(** One response of B to A and one of A to B. *)
Definition ex_tied_pairs : list Pair :=
  [ ex_pair;
    {| leader_symbol := "B";
       follower_symbol := "A";
       leader_time := at_hm 10 10;
       follower_time := at_hm 10 14;
       time_lag_minutes := 4;
       leader_close := 101;
       leader_large_total := 8000000;
       leader_large_net := 8000000;
       leader_return_1min := Some 1%Q;
       follower_base_price := 100;
       follower_trigger_price := 101;
       follower_gain_pct := 1;
       is_enhanced_signal := false |} ].

(** Eighteen leaders, S01 to S18, with one response of Z each. *)
Definition ex_many_leaders : list Pair :=
  map (fun s =>
         {| leader_symbol := s;
            follower_symbol := "Z";
            leader_time := at_hm 10 10;
            follower_time := at_hm 10 14;
            time_lag_minutes := 4;
            leader_close := 101;
            leader_large_total := 8000000;
            leader_large_net := 8000000;
            leader_return_1min := Some 1%Q;
            follower_base_price := 100;
            follower_trigger_price := 101;
            follower_gain_pct := 1;
            is_enhanced_signal := false |})
      [ "S01"; "S02"; "S03"; "S04"; "S05"; "S06"; "S07"; "S08"; "S09";
        "S10"; "S11"; "S12"; "S13"; "S14"; "S15"; "S16"; "S17"; "S18" ]%string.


(** * Facts *)

(** ** Comparisons *)

Lemma Qlt_bool_iff (x y : Q) : Qlt_bool x y = true <-> (x < y)%Q.
Proof.
  unfold Qlt_bool. rewrite negb_true_iff. split.
  - intros H. apply Qnot_le_lt. intros Hle.
    apply Qle_bool_iff in Hle. congruence.
  - intros H. destruct (Qle_bool y x) eqn:E; [|reflexivity].
    apply Qle_bool_iff in E. exfalso. exact (Qlt_not_le _ _ H E).
Qed.

Lemma string_compare_refl (s : string) : String.compare s s = Eq.
Proof. apply String_as_OT.cmp_eq. reflexivity. Qed.

Lemma string_compare_eq (a b : string) : String.compare a b = Eq -> a = b.
Proof. apply String_as_OT.cmp_eq. Qed.

Lemma string_compare_lt_trans (a b c : string) :
  String.compare a b = Lt -> String.compare b c = Lt -> String.compare a c = Lt.
Proof.
  intros H1 H2. apply String_as_OT.cmp_lt.
  apply String_as_OT.cmp_lt in H1. apply String_as_OT.cmp_lt in H2.
  exact (String_as_OT.lt_trans _ _ _ H1 H2).
Qed.

Lemma string_compare_gt_lt (a b : string) :
  String.compare a b = Gt -> String.compare b a = Lt.
Proof.
  intros H. rewrite String_as_OT.cmp_antisym. unfold String_as_OT.cmp.
  rewrite H. reflexivity.
Qed.

(** ** The stable sort *)

Section StableSortFacts.
Context {A : Type} (leb : A -> A -> bool).

Lemma insert_sorted_perm (x : A) (l : list A) :
  Permutation (x :: l) (insert_sorted leb x l).
Proof.
  induction l as [|y l IH]; simpl.
  - apply Permutation_refl.
  - destruct (leb x y).
    + apply Permutation_refl.
    + eapply Permutation_trans; [apply perm_swap|].
      apply perm_skip. exact IH.
Qed.

Lemma stable_sort_perm (l : list A) : Permutation l (stable_sort leb l).
Proof.
  induction l as [|x l IH]; simpl.
  - apply perm_nil.
  - eapply Permutation_trans; [apply perm_skip; exact IH|].
    apply insert_sorted_perm.
Qed.

Lemma stable_sort_In (l : list A) (x : A) : In x (stable_sort leb l) <-> In x l.
Proof.
  split; apply Permutation_in;
    [apply Permutation_sym|]; apply stable_sort_perm.
Qed.

Hypothesis leb_total : forall a b, leb a b = true \/ leb b a = true.
Hypothesis leb_trans : forall a b c, leb a b = true -> leb b c = true -> leb a c = true.

Let le (a b : A) : Prop := leb a b = true.

Lemma insert_sorted_sorted (x : A) (l : list A) :
  StronglySorted le l -> StronglySorted le (insert_sorted leb x l).
Proof.
  induction 1 as [|y l Hs IH Hall]; simpl.
  - constructor; constructor.
  - destruct (leb x y) eqn:E.
    + constructor; [constructor; assumption|].
      constructor; [exact E|].
      eapply Forall_impl; [|exact Hall].
      intros z Hz. exact (leb_trans _ _ _ E Hz).
    + constructor; [exact IH|].
      assert (Hyx : leb y x = true)
        by (destruct (leb_total x y) as [H|H]; [congruence|exact H]).
      rewrite Forall_forall. intros z Hz.
      apply (Permutation_in z (Permutation_sym (insert_sorted_perm x l))) in Hz.
      destruct Hz as [<-|Hz]; [exact Hyx|].
      rewrite Forall_forall in Hall. exact (Hall z Hz).
Qed.

Lemma stable_sort_sorted (l : list A) : StronglySorted le (stable_sort leb l).
Proof.
  induction l as [|x l IH]; simpl.
  - constructor.
  - apply insert_sorted_sorted. exact IH.
Qed.

End StableSortFacts.

Lemma StronglySorted_weaken {A : Type} (R S : A -> A -> Prop) (l : list A) :
  (forall a b, R a b -> S a b) -> StronglySorted R l -> StronglySorted S l.
Proof.
  intros HRS. induction 1 as [|x l Hs IH Hall]; constructor.
  - exact IH.
  - eapply Forall_impl; [|exact Hall]. intros b. apply HRS.
Qed.

Lemma StronglySorted_filter {A : Type} (R : A -> A -> Prop) (f : A -> bool) (l : list A) :
  StronglySorted R l -> StronglySorted R (filter f l).
Proof.
  induction 1 as [|x l Hs IH Hall]; simpl.
  - constructor.
  - destruct (f x); [|exact IH].
    constructor; [exact IH|].
    rewrite Forall_forall in *. intros y Hy.
    apply filter_In in Hy. apply Hall. tauto.
Qed.

(** ** [unique] *)

Section UniqueFacts.
Context {A : Type} (eqb : A -> A -> bool).
Hypothesis eqb_spec : forall a b, eqb a b = true <-> a = b.

Lemma existsb_eqb (x : A) (l : list A) : existsb (eqb x) l = true <-> In x l.
Proof.
  rewrite existsb_exists. split.
  - intros [y [Hy E]]. apply eqb_spec in E. subst. exact Hy.
  - intros H. exists x. split; [exact H|]. apply eqb_spec. reflexivity.
Qed.

Lemma unique_from_In (seen l : list A) (x : A) :
  In x (unique_from eqb seen l) <-> In x l /\ ~ In x seen.
Proof.
  revert seen. induction l as [|y l IH]; intros seen; simpl.
  - tauto.
  - destruct (existsb (eqb y) seen) eqn:E.
    + apply existsb_eqb in E. rewrite IH. split.
      * tauto.
      * intros [[<-|H] Hn]; [contradiction|tauto].
    + assert (Hy : ~ In y seen)
        by (intros H; apply existsb_eqb in H; congruence).
      simpl. rewrite IH. simpl. split.
      * intros [<-|[H Hn]]; [tauto|]. split; [tauto|]. intros Hs. apply Hn. tauto.
      * intros [[<-|H] Hn]; [tauto|].
        destruct (eqb y x) eqn:Eyx.
        -- apply eqb_spec in Eyx. tauto.
        -- right. split; [exact H|]. intros [->|Hs]; [|contradiction].
           assert (eqb x x = true) by (apply eqb_spec; reflexivity). congruence.
Qed.

Lemma unique_In (l : list A) (x : A) : In x (unique eqb l) <-> In x l.
Proof. unfold unique. rewrite unique_from_In. simpl. tauto. Qed.

Lemma unique_from_NoDup (seen l : list A) : NoDup (unique_from eqb seen l).
Proof.
  revert seen. induction l as [|y l IH]; intros seen; simpl.
  - constructor.
  - destruct (existsb (eqb y) seen); [apply IH|].
    constructor; [|apply IH].
    rewrite unique_from_In. simpl. tauto.
Qed.

Lemma unique_NoDup (l : list A) : NoDup (unique eqb l).
Proof. apply unique_from_NoDup. Qed.

End UniqueFacts.

(** ** [load_data] *)

Lemma symbol_datetime_leb_total (a b : Row) :
  symbol_datetime_leb a b = true \/ symbol_datetime_leb b a = true.
Proof.
  unfold symbol_datetime_leb.
  destruct (String.compare (row_symbol a) (row_symbol b)) eqn:E.
  - apply string_compare_eq in E. rewrite E, string_compare_refl.
    destruct (Z.leb_spec (row_datetime a) (row_datetime b)); [left; reflexivity|].
    right. apply Z.leb_le. lia.
  - left. reflexivity.
  - right. rewrite (string_compare_gt_lt _ _ E). reflexivity.
Qed.

Lemma symbol_datetime_leb_trans (a b c : Row) :
  symbol_datetime_leb a b = true -> symbol_datetime_leb b c = true ->
  symbol_datetime_leb a c = true.
Proof.
  unfold symbol_datetime_leb.
  destruct (String.compare (row_symbol a) (row_symbol b)) eqn:Eab; try discriminate;
    destruct (String.compare (row_symbol b) (row_symbol c)) eqn:Ebc; try discriminate;
    intros H1 H2.
  - apply string_compare_eq in Eab. apply string_compare_eq in Ebc.
    rewrite Eab, Ebc, string_compare_refl.
    apply Z.leb_le. apply Z.leb_le in H1. apply Z.leb_le in H2. lia.
  - apply string_compare_eq in Eab. rewrite Eab, Ebc. reflexivity.
  - apply string_compare_eq in Ebc. rewrite <- Ebc, Eab. reflexivity.
  - rewrite (string_compare_lt_trans _ _ _ Eab Ebc). reflexivity.
Qed.

Lemma StronglySorted_map {A B : Type} (R : B -> B -> Prop) (f : A -> B) (l : list A) :
  StronglySorted (fun a b => R (f a) (f b)) l -> StronglySorted R (map f l).
Proof.
  induction 1 as [|x l Hs IH Hall]; simpl; constructor.
  - exact IH.
  - rewrite Forall_forall in *. intros y Hy.
    apply in_map_iff in Hy. destruct Hy as [z [<- Hz]]. exact (Hall z Hz).
Qed.

Lemma load_data_sorted (raw : list Bar) (self : Analyzer) :
  rows_sorted (data (load_data raw self)).
Proof.
  unfold rows_sorted, load_data. simpl.
  apply StronglySorted_map.
  eapply StronglySorted_weaken;
    [|apply stable_sort_sorted;
      [apply symbol_datetime_leb_total|apply symbol_datetime_leb_trans]].
  intros a b H Hsym. unfold symbol_datetime_leb, row_symbol in H.
  rewrite Hsym, string_compare_refl in H. apply Z.leb_le. exact H.
Qed.

Lemma load_data_In (raw : list Bar) (self : Analyzer) (r : Row) :
  In r (data (load_data raw self)) <->
  exists b, In b raw /\ trading_mask b = true /\ r = with_large_columns b.
Proof.
  unfold load_data. simpl. rewrite stable_sort_In, in_map_iff. split.
  - intros [b [<- Hb]]. apply filter_In in Hb. exists b. tauto.
  - intros [b [Hb [Hm ->]]]. exists b. split; [reflexivity|].
    apply filter_In. tauto.
Qed.

Lemma load_data_stocks (raw : list Bar) (self : Analyzer) (s : string) :
  In s (stocks (load_data raw self)) <->
  exists r, In r (data (load_data raw self)) /\ row_symbol r = s.
Proof.
  unfold load_data. simpl.
  rewrite stable_sort_In, (unique_In String.eqb String.eqb_eq), in_map_iff.
  split; intros [r H]; exists r; tauto.
Qed.

Lemma load_data_stocks_NoDup (raw : list Bar) (self : Analyzer) :
  NoDup (stocks (load_data raw self)).
Proof.
  unfold load_data. simpl.
  eapply Permutation_NoDup; [apply stable_sort_perm|].
  apply (unique_NoDup String.eqb String.eqb_eq).
Qed.

(** ** [calculate_price_movements] *)

Lemma with_series_bar (all hist rest : list Row) :
  map bar (with_series all hist rest) = map bar rest.
Proof.
  revert hist. induction rest as [|r rest IH]; intros hist; simpl.
  - reflexivity.
  - rewrite IH. reflexivity.
Qed.

Lemma price_movements_bar (sd : list Row) : map bar (price_movements sd) = map bar sd.
Proof. apply with_series_bar. Qed.

Lemma loc_assign_bar (sym : string) (d upd : list Row) :
  map bar upd = map bar (stock_data sym d) ->
  map bar (loc_assign sym d upd) = map bar d.
Proof.
  revert upd. induction d as [|r d IH]; intros upd H; simpl in *.
  - reflexivity.
  - destruct (String.eqb (row_symbol r) sym) eqn:E.
    + destruct upd as [|u upd]; simpl in H; [discriminate|].
      injection H as Hu Hrest. simpl. rewrite Hu, (IH _ Hrest). reflexivity.
    + simpl. rewrite (IH _ H). reflexivity.
Qed.

Lemma loc_assign_stock_data_same (sym : string) (d upd : list Row) :
  map bar upd = map bar (stock_data sym d) ->
  stock_data sym (loc_assign sym d upd) = upd.
Proof.
  revert upd. induction d as [|r d IH]; intros upd H; simpl in *.
  - destruct upd; [reflexivity|discriminate].
  - destruct (String.eqb (row_symbol r) sym) eqn:E.
    + destruct upd as [|u upd]; simpl in H; [discriminate|].
      injection H as Hu Hrest. simpl.
      unfold row_symbol in *. rewrite Hu, E, (IH _ Hrest). reflexivity.
    + simpl. rewrite E. apply IH. exact H.
Qed.

Lemma loc_assign_stock_data_other (sym sym' : string) (d upd : list Row) :
  sym' <> sym ->
  map bar upd = map bar (stock_data sym d) ->
  stock_data sym' (loc_assign sym d upd) = stock_data sym' d.
Proof.
  intros Hne. revert upd. induction d as [|r d IH]; intros upd H; simpl in *.
  - reflexivity.
  - destruct (String.eqb (row_symbol r) sym) eqn:E.
    + destruct upd as [|u upd]; simpl in H; [discriminate|].
      injection H as Hu Hrest. simpl.
      apply String.eqb_eq in E.
      assert (Eu : String.eqb (row_symbol u) sym' = false)
        by (apply String.eqb_neq; unfold row_symbol in *; rewrite Hu; congruence).
      assert (Er : String.eqb (row_symbol r) sym' = false)
        by (apply String.eqb_neq; congruence).
      rewrite Eu, Er. apply IH. exact Hrest.
    + simpl. rewrite (IH _ H). reflexivity.
Qed.

Lemma calculate_price_movements_data (self : Analyzer) :
  data (calculate_price_movements self)
  = fold_left assign_price_movements (stocks self) (data self).
Proof. reflexivity. Qed.

Lemma fold_assign_bar (syms : list string) (d : list Row) :
  map bar (fold_left assign_price_movements syms d) = map bar d.
Proof.
  revert d. induction syms as [|s syms IH]; intros d; simpl.
  - reflexivity.
  - rewrite IH. apply loc_assign_bar. apply price_movements_bar.
Qed.

Lemma fold_assign_untouched (syms : list string) (d : list Row) (s : string) :
  ~ In s syms ->
  stock_data s (fold_left assign_price_movements syms d) = stock_data s d.
Proof.
  revert d. induction syms as [|s0 syms IH]; intros d Hn; simpl.
  - reflexivity.
  - rewrite IH by (simpl in Hn; tauto).
    apply loc_assign_stock_data_other.
    + simpl in Hn. intros ->. tauto.
    + apply price_movements_bar.
Qed.

(** After the loop the rows of every listed symbol carry the columns computed
    from that symbol's own rows. *)
Lemma fold_assign_stock_data (syms : list string) (d : list Row) (s : string) :
  NoDup syms -> In s syms ->
  stock_data s (fold_left assign_price_movements syms d)
  = price_movements (stock_data s d).
Proof.
  revert d. induction syms as [|s0 syms IH]; intros d Hnd Hin; simpl.
  - destruct Hin.
  - inversion Hnd as [|? ? Hnotin Hnd']; subst.
    destruct (string_dec s0 s) as [->|Hne].
    + rewrite fold_assign_untouched by exact Hnotin.
      apply loc_assign_stock_data_same. apply price_movements_bar.
    + destruct Hin as [Heq|Hin]; [contradiction|].
      rewrite (IH _ Hnd' Hin). f_equal.
      apply loc_assign_stock_data_other; [congruence|apply price_movements_bar].
Qed.

(** ** [identify_leader_signals] *)

Lemma flag_row_bar (mm ma mpc : Q) (r : Row) : bar (flag_row mm ma mpc r) = bar r.
Proof. reflexivity. Qed.

Lemma flag_row_series (mm ma mpc : Q) (r : Row) :
  series (flag_row mm ma mpc r) = series r.
Proof. reflexivity. Qed.

Lemma flag_row_leader_signal (mm ma mpc : Q) (r : Row) :
  leader_signal (flag_row mm ma mpc r) = leader_signal_mask mm ma mpc r.
Proof. reflexivity. Qed.

Lemma identify_leader_signals_data (mm ma mpc : Q) (self : Analyzer) :
  data (snd (identify_leader_signals mm ma mpc self))
  = map (flag_row mm ma mpc) (data self).
Proof. reflexivity. Qed.

Lemma stock_data_flag_row (mm ma mpc : Q) (s : string) (d : list Row) :
  stock_data s (map (flag_row mm ma mpc) d)
  = map (flag_row mm ma mpc) (stock_data s d).
Proof.
  induction d as [|r d IH]; simpl.
  - reflexivity.
  - unfold row_symbol at 1. rewrite flag_row_bar. fold (row_symbol r).
    destruct (String.eqb (row_symbol r) s); simpl; rewrite IH; reflexivity.
Qed.

(** ** The run keeps the loaded bars *)

Lemma flagged_data (raw : list Bar) (p : Params) :
  data (flagged raw p)
  = map (flag_row (money_multiplier p) (min_amount p) (min_price_change p))
      (fold_left assign_price_movements (stocks (load_data raw init_analyzer))
         (data (load_data raw init_analyzer))).
Proof. reflexivity. Qed.

Lemma flagged_stocks (raw : list Bar) (p : Params) :
  stocks (flagged raw p) = stocks (load_data raw init_analyzer).
Proof. reflexivity. Qed.

Lemma flagged_bar (raw : list Bar) (p : Params) :
  map bar (data (flagged raw p)) = map bar (data (load_data raw init_analyzer)).
Proof.
  rewrite flagged_data, map_map.
  rewrite (map_ext _ bar) by (intros; apply flag_row_bar).
  apply fold_assign_bar.
Qed.

Lemma flagged_sorted (raw : list Bar) (p : Params) : rows_sorted (data (flagged raw p)).
Proof.
  unfold rows_sorted. rewrite flagged_bar. apply load_data_sorted.
Qed.

Lemma flagged_bar_In (raw : list Bar) (p : Params) (r : Row) :
  In r (data (flagged raw p)) -> In (bar r) raw /\ trading_mask (bar r) = true.
Proof.
  intros H. apply (in_map bar) in H. rewrite flagged_bar in H.
  apply in_map_iff in H. destruct H as [r0 [Hb H0]].
  apply load_data_In in H0. destruct H0 as [b [Hin [Hm ->]]].
  simpl in Hb. subst b. tauto.
Qed.

(** ** [analyze_leader_follower_relationships] *)

Lemma iloc_last_In {A : Type} (l : list A) (x : A) : iloc_last l = Some x -> In x l.
Proof.
  induction l as [|y l IH]; simpl; [discriminate|].
  destruct l as [|z l].
  - intros H. injection H as ->. left. reflexivity.
  - intros H. right. exact (IH H).
Qed.

Lemma iloc_last_sorted {A : Type} (R : A -> A -> Prop) (l : list A) (x : A) :
  StronglySorted R l -> iloc_last l = Some x ->
  forall y, In y l -> y = x \/ R y x.
Proof.
  induction 1 as [|z l Hs IH Hall]; [discriminate|].
  intros Hlast y Hy. simpl in Hlast. destruct l as [|w l].
  - injection Hlast as <-. destruct Hy as [->|[]]. left. reflexivity.
  - destruct Hy as [<-|Hy].
    + right. rewrite Forall_forall in Hall. apply Hall.
      apply iloc_last_In. exact Hlast.
    + exact (IH Hlast y Hy).
Qed.

Lemma iloc_first_sorted {A : Type} (R : A -> A -> Prop) (l : list A) (x : A) :
  StronglySorted R l -> iloc_first l = Some x ->
  In x l /\ forall y, In y l -> y = x \/ R x y.
Proof.
  intros Hs Hfirst. destruct l as [|z l]; simpl in Hfirst; [discriminate|].
  injection Hfirst as ->. split; [left; reflexivity|].
  intros y [<-|Hy]; [left; reflexivity|right].
  inversion Hs as [|? ? _ Hall]; subst.
  rewrite Forall_forall in Hall. exact (Hall y Hy).
Qed.

Lemma StronglySorted_map_inv {A B : Type} (R : B -> B -> Prop) (f : A -> B) (l : list A) :
  StronglySorted R (map f l) -> StronglySorted (fun a b => R (f a) (f b)) l.
Proof.
  induction l as [|x l IH]; simpl; intros H.
  - constructor.
  - inversion H as [|? ? Hs Hall]; subst. constructor; [exact (IH Hs)|].
    rewrite Forall_forall in *. intros y Hy. apply Hall. apply in_map. exact Hy.
Qed.

Lemma follower_base_data_In (d : list Row) (f : string) (t : Timestamp) (r : Row) :
  In r (follower_base_data d f t) <->
  In r d /\ row_symbol r = f /\ row_datetime r <= t.
Proof.
  unfold follower_base_data. rewrite filter_In, andb_true_iff, String.eqb_eq, Z.leb_le.
  tauto.
Qed.

Lemma follower_window_data_In (d : list Row) (f : string) (t1 t2 : Timestamp) (r : Row) :
  In r (follower_window_data d f t1 t2) <->
  In r d /\ row_symbol r = f /\ t1 < row_datetime r <= t2.
Proof.
  unfold follower_window_data.
  rewrite filter_In, !andb_true_iff, String.eqb_eq, Z.ltb_lt, Z.leb_le.
  tauto.
Qed.

Lemma significant_gains_In (mg base : Q) (w : list Row) (r : Row) :
  In r (significant_gains mg base w) <->
  In r w /\ (mg <= gain_pct base (row_close r))%Q.
Proof.
  unfold significant_gains. rewrite filter_In, Qle_bool_iff. tauto.
Qed.

Lemma match_follower_Some (d : list Row) (lag : Z) (mg : Q) (signal : Row)
    (f : string) (p : Pair) :
  match_follower d lag mg signal f = Some p ->
  exists base_row first_gain, Matched d lag mg signal f p base_row first_gain.
Proof.
  unfold match_follower.
  destruct (String.eqb f (row_symbol signal)) eqn:E; [discriminate|].
  apply String.eqb_neq in E.
  destruct (iloc_last (follower_base_data d f (row_datetime signal)))
    as [base_row|] eqn:Eb; [|discriminate].
  destruct (iloc_first _) as [first_gain|] eqn:Ef; [|discriminate].
  intros H. injection H as <-.
  exists base_row, first_gain. constructor; try reflexivity; assumption.
Qed.

Lemma leader_follower_pairs_In (d : list Row) (syms : list string) (lag : Z) (mg : Q)
    (p : Pair) :
  In p (leader_follower_pairs d syms lag mg) <->
  exists signal f,
    In signal d /\ leader_signal signal = true /\ In f syms
    /\ match_follower d lag mg signal f = Some p.
Proof.
  unfold leader_follower_pairs. rewrite in_flat_map. split.
  - intros [signal [Hs Hp]]. apply filter_In in Hs.
    apply in_flat_map in Hp. destruct Hp as [f [Hf Hp]].
    exists signal, f. repeat split; try tauto.
    destruct (match_follower d lag mg signal f); simpl in Hp; [|destruct Hp].
    destruct Hp as [->|[]]. reflexivity.
  - intros [signal [f [Hs [Hl [Hf Hm]]]]]. exists signal. split.
    + apply filter_In. tauto.
    + apply in_flat_map. exists f. split; [exact Hf|].
      rewrite Hm. left. reflexivity.
Qed.

Lemma analyze_fst (lag : Z) (mg : Q) (self : Analyzer) :
  fst (analyze_leader_follower_relationships lag mg self)
  = leader_follower_pairs (data self) (stocks self) lag mg.
Proof.
  unfold analyze_leader_follower_relationships.
  destruct (leader_follower_pairs (data self) (stocks self) lag mg); reflexivity.
Qed.

Lemma run_pairs_In (raw : list Bar) (prm : Params) (p : Pair) :
  In p (run_pairs raw prm) <->
  exists signal f,
    In signal (data (flagged raw prm)) /\ leader_signal signal = true
    /\ In f (stocks (flagged raw prm))
    /\ match_follower (data (flagged raw prm)) (max_lag_minutes prm) (min_gain prm)
         signal f = Some p.
Proof. unfold run_pairs. rewrite analyze_fst. apply leader_follower_pairs_In. Qed.

(** The first row of the significant gains lies in the window and no row of
    the window that reaches the floor is earlier. *)
Lemma matched_first_passage (d : list Row) (lag : Z) (mg : Q) (signal : Row)
    (f : string) (p : Pair) (base_row first_gain : Row) :
  rows_sorted d ->
  Matched d lag mg signal f p base_row first_gain ->
  (In first_gain d /\ row_symbol first_gain = f
   /\ row_datetime signal < row_datetime first_gain
        <= row_datetime signal + timedelta_minutes lag
   /\ (mg <= gain_pct (row_close base_row) (row_close first_gain))%Q)
  /\ forall r, In r d -> row_symbol r = f ->
       row_datetime signal < row_datetime r
         <= row_datetime signal + timedelta_minutes lag ->
       (mg <= gain_pct (row_close base_row) (row_close r))%Q ->
       row_datetime first_gain <= row_datetime r.
Proof.
  intros Hsorted M.
  pose proof (matched_first _ _ _ _ _ _ _ _ M) as Hfirst.
  apply StronglySorted_map_inv in Hsorted.
  apply iloc_first_sorted
    with (R := fun a b => time_ordered (bar a) (bar b)) in Hfirst.
  2:{ unfold significant_gains, follower_window_data.
      do 2 apply StronglySorted_filter. exact Hsorted. }
  destruct Hfirst as [Hin Hmin].
  apply significant_gains_In in Hin. destruct Hin as [Hin Hgain].
  apply follower_window_data_In in Hin. destruct Hin as [Hd [Hsym Hwin]].
  split; [tauto|].
  intros r Hr Hrsym Hrwin Hrgain.
  destruct (Hmin r) as [->|Hord].
  - apply significant_gains_In. split; [|exact Hrgain].
    apply follower_window_data_In. tauto.
  - lia.
  - apply Hord. unfold row_symbol in *. congruence.
Qed.

(** The base row is the latest row of the follower at or before the signal. *)
Lemma matched_base_latest (d : list Row) (lag : Z) (mg : Q) (signal : Row)
    (f : string) (p : Pair) (base_row first_gain : Row) :
  rows_sorted d ->
  Matched d lag mg signal f p base_row first_gain ->
  (In base_row d /\ row_symbol base_row = f
   /\ row_datetime base_row <= row_datetime signal)
  /\ forall r, In r d -> row_symbol r = f -> row_datetime r <= row_datetime signal ->
       row_datetime r <= row_datetime base_row.
Proof.
  intros Hsorted M.
  pose proof (matched_base _ _ _ _ _ _ _ _ M) as Hbase.
  apply StronglySorted_map_inv in Hsorted.
  pose proof (iloc_last_In _ _ Hbase) as Hin.
  apply follower_base_data_In in Hin.
  split; [exact Hin|].
  intros r Hr Hrsym Hrt.
  destruct (iloc_last_sorted (fun a b => time_ordered (bar a) (bar b)) _ _
              (StronglySorted_filter _ _ _ Hsorted) Hbase r) as [->|Hord].
  - apply follower_base_data_In. tauto.
  - lia.
  - apply Hord. unfold row_symbol in *. destruct Hin as [_ [Hs _]]. congruence.
Qed.

(** ** Trading hours *)

Lemma dt_minute_range (t : Timestamp) : 0 <= dt_minute t < 60.
Proof.
  unfold dt_minute.
  pose proof (Z.mod_pos_bound t 3600 ltac:(lia)) as H.
  split.
  - apply Z.div_pos; lia.
  - apply Z.div_lt_upper_bound; lia.
Qed.

Lemma trading_mask_hours (b : Bar) :
  trading_mask b = true <-> in_trading_hours (datetime b).
Proof.
  unfold trading_mask, in_trading_hours, minute_of_day.
  pose proof (dt_minute_range (datetime b)) as Hm.
  rewrite !orb_true_iff, !andb_true_iff, !Z.eqb_eq, !Z.leb_le.
  lia.
Qed.

Example ex_run_pairs : run_pairs ex_raw ex_params = [ex_pair].
Proof. vm_compute. reflexivity. Qed.

(** The pair records the first bar at or over the floor (0.6 at 09:18), not
    the peak of the window (1.5 at 09:25). *)
Example ex_first_passage_is_not_peak :
  exists peak,
    In peak (data (flagged ex_raw ex_params))
    /\ row_symbol peak = follower_symbol ex_pair
    /\ leader_time ex_pair < row_datetime peak
         <= leader_time ex_pair + timedelta_minutes (max_lag_minutes ex_params)
    /\ (follower_gain_pct ex_pair
        < gain_pct (follower_base_price ex_pair) (row_close peak))%Q.
Proof.
  exists (nth 5 (data (flagged ex_raw ex_params))
            (with_large_columns (mkBar "" 0 0 0 0 0 0))).
  vm_compute. repeat split; try discriminate. tauto.
Qed.

(** * The relationship matcher *)

(** C1.  Every pair of a run records the first passage of the gain floor:
    [follower_time] is the time of a bar of the follower inside the window
    (leader_time, leader_time + max_lag_minutes] whose gain over the recorded
    base price is at least [min_gain]; no bar of the follower in the window
    that reaches the floor is earlier; no bar of the follower strictly
    between [leader_time] and [follower_time] reaches the floor; and
    [follower_gain_pct] is the gain at that bar, hence at least [min_gain]. *)
Theorem first_passage_pair (raw : list Bar) (prm : Params) (p : Pair) :
  In p (run_pairs raw prm) ->
  let d := data (flagged raw prm) in
  let gain r := gain_pct (follower_base_price p) (row_close r) in
  let in_window t :=
    leader_time p < t <= leader_time p + timedelta_minutes (max_lag_minutes prm) in
  (exists first_gain,
     In first_gain d
     /\ row_symbol first_gain = follower_symbol p
     /\ row_datetime first_gain = follower_time p
     /\ in_window (follower_time p)
     /\ follower_gain_pct p = gain first_gain)
  /\ (forall r, In r d -> row_symbol r = follower_symbol p ->
        in_window (row_datetime r) -> (min_gain prm <= gain r)%Q ->
        follower_time p <= row_datetime r)
  /\ (forall r, In r d -> row_symbol r = follower_symbol p ->
        leader_time p < row_datetime r < follower_time p ->
        ~ (min_gain prm <= gain r)%Q)
  /\ (min_gain prm <= follower_gain_pct p)%Q.
Proof.
  intros Hp d gain in_window. subst gain in_window.
  apply run_pairs_In in Hp. destruct Hp as [signal [f [_ [_ [_ Hm]]]]].
  apply match_follower_Some in Hm. destruct Hm as [base_row [first_gain M]].
  destruct (matched_first_passage _ _ _ _ _ _ _ _ (flagged_sorted raw prm) M)
    as [[Hin [Hsym [Hwin Hgain]]] Hmin].
  destruct M as [_ _ _ _ Hf Hlt Hft _ Hbp _ Hg].
  rewrite Hf, Hlt, Hft, Hbp, Hg. fold d in Hin, Hmin.
  split; [|split; [|split]].
  - exists first_gain. tauto.
  - exact Hmin.
  - intros r Hr Hrs Hbetween Hge.
    specialize (Hmin r Hr Hrs ltac:(lia) Hge). lia.
  - exact Hgain.
Qed.

Lemma first_passage_pair_witness :
  In ex_pair (run_pairs ex_raw ex_params)
  /\ (min_gain ex_params <= follower_gain_pct ex_pair)%Q.
Proof.
  assert (H : In ex_pair (run_pairs ex_raw ex_params))
    by (vm_compute; left; reflexivity).
  split; [exact H|].
  apply (first_passage_pair ex_raw ex_params ex_pair H).
Defined.

Lemma time_lag_bounds (t1 t2 lag : Z) :
  t1 < t2 <= t1 + timedelta_minutes lag ->
  (0 < total_seconds t2 t1 / 60)%Q /\ (total_seconds t2 t1 / 60 <= inject_Z lag)%Q.
Proof.
  unfold timedelta_minutes, total_seconds. intros H. split.
  - apply Qlt_shift_div_l; [reflexivity|].
    rewrite Qmult_0_l. change 0%Q with (inject_Z 0).
    rewrite <- Zlt_Qlt. lia.
  - apply Qle_shift_div_r; [reflexivity|].
    change 60%Q with (inject_Z 60).
    rewrite <- inject_Z_mult, <- Zle_Qle. lia.
Qed.

(** C3.  Every pair that one call of the matcher with window [lag] returns
    has [0 < time_lag_minutes <= lag]. *)
Theorem time_lag_within_window (lag : Z) (mg : Q) (self : Analyzer) (p : Pair) :
  In p (fst (analyze_leader_follower_relationships lag mg self)) ->
  (0 < time_lag_minutes p)%Q /\ (time_lag_minutes p <= inject_Z lag)%Q.
Proof.
  rewrite analyze_fst. intros Hp.
  apply leader_follower_pairs_In in Hp. destruct Hp as [signal [f [_ [_ [_ Hm]]]]].
  apply match_follower_Some in Hm. destruct Hm as [base_row [first_gain M]].
  pose proof (matched_first _ _ _ _ _ _ _ _ M) as Hfirst.
  rewrite (matched_time_lag _ _ _ _ _ _ _ _ M).
  apply time_lag_bounds.
  destruct (significant_gains _ _ _) as [|x l] eqn:E; simpl in Hfirst; [discriminate|].
  injection Hfirst as ->.
  assert (Hin : In first_gain (first_gain :: l)) by (left; reflexivity).
  rewrite <- E in Hin. apply significant_gains_In in Hin.
  destruct Hin as [Hin _]. apply follower_window_data_In in Hin. tauto.
Qed.

Lemma time_lag_within_window_witness :
  In ex_pair
    (fst (analyze_leader_follower_relationships 30 (1 # 2) (flagged ex_raw ex_params)))
  /\ (0 < time_lag_minutes ex_pair)%Q
  /\ (time_lag_minutes ex_pair <= inject_Z 30)%Q.
Proof.
  assert (H : In ex_pair
                (fst (analyze_leader_follower_relationships 30 (1 # 2)
                        (flagged ex_raw ex_params))))
    by (vm_compute; left; reflexivity).
  split; [exact H|].
  apply (time_lag_within_window 30 (1 # 2) (flagged ex_raw ex_params) ex_pair H).
Defined.

Lemma flat_map_skip {A B : Type} (g : A -> list B) (skip : A -> bool) (l : list A) :
  (forall a, In a l -> skip a = true -> g a = []) ->
  flat_map g l = flat_map g (filter (fun a => negb (skip a)) l).
Proof.
  induction l as [|a l IH]; intros H; simpl.
  - reflexivity.
  - rewrite IH by (intros; apply H; simpl; tauto).
    destruct (skip a) eqn:E; simpl; [|reflexivity].
    rewrite (H a) by (simpl; tauto). reflexivity.
Qed.

Lemma match_follower_no_history (d : list Row) (lag : Z) (mg : Q) (signal : Row)
    (f : string) :
  (forall r, In r d -> row_symbol r = f -> row_datetime signal < row_datetime r) ->
  match_follower d lag mg signal f = None.
Proof.
  intros Hnone. unfold match_follower.
  destruct (String.eqb f (row_symbol signal)); [reflexivity|].
  destruct (iloc_last (follower_base_data d f (row_datetime signal)))
    as [b|] eqn:E; [|reflexivity].
  apply iloc_last_In, follower_base_data_In in E.
  destruct E as [Hin [Hs Ht]]. specialize (Hnone b Hin Hs). lia.
Qed.

(** C4.  In a run, the base price of every pair is the close of the
    follower's latest bar at or before the leader signal, and the follower is
    another symbol than the leader.  A follower with no bar at or before the
    signal gives no pair for that signal: the loop body yields nothing, and
    the pairs of the signal are those of the remaining followers. *)
Theorem base_price_is_latest_close (raw : list Bar) (prm : Params) :
  let d := data (flagged raw prm) in
  let lag := max_lag_minutes prm in
  let mg := min_gain prm in
  (forall p, In p (run_pairs raw prm) ->
     follower_symbol p <> leader_symbol p
     /\ exists base_row,
          In base_row d
          /\ row_symbol base_row = follower_symbol p
          /\ row_datetime base_row <= leader_time p
          /\ follower_base_price p = row_close base_row
          /\ forall r, In r d -> row_symbol r = follower_symbol p ->
               row_datetime r <= leader_time p ->
               row_datetime r <= row_datetime base_row)
  /\ (forall signal f,
        (forall r, In r d -> row_symbol r = f ->
           row_datetime signal < row_datetime r) ->
        match_follower d lag mg signal f = None
        /\ forall syms,
             flat_map (fun f' => option_to_list (match_follower d lag mg signal f')) syms
             = flat_map (fun f' => option_to_list (match_follower d lag mg signal f'))
                 (filter (fun f' => negb (String.eqb f' f)) syms)).
Proof.
  intros d lag mg. split.
  - intros p Hp.
    apply run_pairs_In in Hp. destruct Hp as [signal [f [_ [_ [_ Hm]]]]].
    apply match_follower_Some in Hm. destruct Hm as [base_row [first_gain M]].
    destruct (matched_base_latest _ _ _ _ _ _ _ _ (flagged_sorted raw prm) M)
      as [[Hin [Hsym Ht]] Hmax].
    destruct M as [Hother _ _ Hl Hf Hlt _ _ Hbp _ _].
    rewrite Hf, Hl, Hlt, Hbp. split; [exact Hother|].
    exists base_row. tauto.
  - intros signal f Hnone.
    pose proof (match_follower_no_history d lag mg signal f Hnone) as Hskip.
    split; [exact Hskip|].
    intros syms. apply flat_map_skip with (skip := fun f' => String.eqb f' f).
    intros a _ Ha. apply String.eqb_eq in Ha. subst a. rewrite Hskip. reflexivity.
Qed.

(** In the worked run the pair's base price is B's close at 09:10, and a
    signal at 09:00 would find no history of B (the 09:00 bar is filtered
    out) and give no pair. *)
Lemma base_price_is_latest_close_witness :
  In ex_pair (run_pairs ex_raw ex_params)
  /\ follower_symbol ex_pair <> leader_symbol ex_pair
  /\ match_follower (data (flagged ex_raw ex_params)) 30 (1 # 2)
       (with_large_columns (mkBar "A" (at_hm 9 0) 101 10000000 0 0 0)) "B" = None.
Proof.
  pose proof (base_price_is_latest_close ex_raw ex_params) as [Hpairs Hskip].
  assert (H : In ex_pair (run_pairs ex_raw ex_params))
    by (vm_compute; left; reflexivity).
  split; [exact H|]. split.
  - exact (proj1 (Hpairs ex_pair H)).
  - apply Hskip. intros r Hr Hs.
    vm_compute in Hr.
    repeat (destruct Hr as [<-|Hr]; [try discriminate Hs; vm_compute; reflexivity|]).
    destruct Hr.
Defined.

(** * Trading hours *)

(** C10.  [load_data] keeps exactly the bars whose time of day, to the
    minute, lies from 09:01 to 13:30; so the stored leader signals and both
    times of every pair of the run lie in those hours. *)
Theorem trading_hours_only (raw : list Bar) (prm : Params) :
  (forall r, In r (data (load_data raw init_analyzer)) <->
     exists b, In b raw /\ in_trading_hours (datetime b) /\ r = with_large_columns b)
  /\ (forall r, In r (data (flagged raw prm)) -> in_trading_hours (row_datetime r))
  /\ (exists sigs,
        res_leader_signals (results (flagged raw prm)) = Some sigs
        /\ forall s, In s sigs -> in_trading_hours (row_datetime s))
  /\ (forall p, In p (run_pairs raw prm) ->
        in_trading_hours (leader_time p) /\ in_trading_hours (follower_time p)).
Proof.
  assert (Hrows : forall r, In r (data (flagged raw prm)) ->
                            in_trading_hours (row_datetime r)).
  { intros r Hr. apply flagged_bar_In in Hr. apply trading_mask_hours. tauto. }
  split; [|split; [exact Hrows|split]].
  - intros r. rewrite load_data_In. split; intros [b [Hb [Hm Hr]]]; exists b;
      (split; [exact Hb|split; [apply trading_mask_hours; exact Hm|exact Hr]]).
  - exists (filter leader_signal (data (flagged raw prm))). split; [reflexivity|].
    intros s Hs. apply filter_In in Hs. apply Hrows. tauto.
  - intros p Hp.
    apply run_pairs_In in Hp. destruct Hp as [signal [f [Hsig [_ [_ Hm]]]]].
    apply match_follower_Some in Hm. destruct Hm as [base_row [first_gain M]].
    rewrite (matched_leader_time _ _ _ _ _ _ _ _ M),
            (matched_follower_time _ _ _ _ _ _ _ _ M).
    split; [exact (Hrows signal Hsig)|].
    apply Hrows.
    pose proof (matched_first _ _ _ _ _ _ _ _ M) as Hfirst.
    destruct (significant_gains _ _ _) as [|x l] eqn:E; simpl in Hfirst; [discriminate|].
    injection Hfirst as ->.
    assert (Hin : In first_gain (first_gain :: l)) by (left; reflexivity).
    rewrite <- E in Hin. apply significant_gains_In in Hin.
    destruct Hin as [Hin _]. apply follower_window_data_In in Hin. tauto.
Qed.

(** In the worked run B's bar at 09:00 is dropped and the pair's times are
    09:10 and 09:18. *)
Lemma trading_hours_only_witness :
  ~ In (at_hm 9 0) (map row_datetime (data (flagged ex_raw ex_params)))
  /\ in_trading_hours (leader_time ex_pair)
  /\ in_trading_hours (follower_time ex_pair).
Proof.
  pose proof (trading_hours_only ex_raw ex_params) as [_ [_ [_ Hpairs]]].
  split.
  - vm_compute. intros H.
    repeat (destruct H as [H|H]; [discriminate H|]). exact H.
  - apply Hpairs. vm_compute. left. reflexivity.
Defined.

(** * The signal identifier *)

Lemma gt_nan_iff (x : Q) (cell : option Q) :
  gt_nan x cell = true <-> exists y, cell = Some y /\ (y < x)%Q.
Proof.
  destruct cell as [y|]; simpl.
  - rewrite Qlt_bool_iff. split.
    + intros H. exists y. tauto.
    + intros [y' [E H]]. injection E as ->. exact H.
  - split; [discriminate|]. intros [y [E _]]. discriminate.
Qed.

Lemma nan_gt_iff (cell : option Q) (y : Q) :
  nan_gt cell y = true <-> exists x, cell = Some x /\ (y < x)%Q.
Proof.
  destruct cell as [x|]; simpl.
  - rewrite Qlt_bool_iff. split.
    + intros H. exists x. tauto.
    + intros [x' [E H]]. injection E as ->. exact H.
  - split; [discriminate|]. intros [x [E _]]. discriminate.
Qed.

Lemma leader_signal_mask_iff (mm ma mpc : Q) (r : Row) :
  leader_signal_mask mm ma mpc r = true <-> LeaderConjuncts mm ma mpc r.
Proof.
  unfold leader_signal_mask, LeaderConjuncts.
  rewrite !andb_true_iff, orb_true_iff, gt_nan_iff, nan_gt_iff, !Qlt_bool_iff.
  unfold nan_mul.
  destruct (col_large_total_ma30 r) as [m|]; simpl.
  - split.
    + intros [[[[[y [E H1]] H2] H3] H4] H5]. injection E as <-.
      repeat split; try assumption. exists m. tauto.
    + intros [[m' [E H1]] [H2 [H3 [H4 H5]]]]. injection E as <-.
      repeat split; try assumption. exists (m * mm)%Q. tauto.
  - split.
    + intros [[[[[y [E _]] _] _] _] _]. discriminate.
    + intros [[m' [E _]] _]. discriminate.
Qed.

Example ex_scenario_flagged :
  leader_signal (flag_row (13 # 10) 500000 (3 # 1000) (ex_minute (4 # 1000))) = true
  /\ leader_signal (flag_row (13 # 10) 500000 (3 # 1000) (ex_minute (2 # 1000))) = false.
Proof. split; reflexivity. Qed.

(** C2.  [identify_leader_signals] classifies every row of [self.data]: the
    rows keep their order and their columns, and a row is flagged exactly
    when the five conjuncts hold of its columns; the stored leader signals
    are exactly the rows that satisfy the five conjuncts. *)
Theorem leader_signal_iff_conjuncts (mm ma mpc : Q) (self : Analyzer) :
  let after := snd (identify_leader_signals mm ma mpc self) in
  data after = map (flag_row mm ma mpc) (data self)
  /\ (forall r,
        bar (flag_row mm ma mpc r) = bar r
        /\ large_net (flag_row mm ma mpc r) = large_net r
        /\ large_total (flag_row mm ma mpc r) = large_total r
        /\ series (flag_row mm ma mpc r) = series r)
  /\ (forall r, In r (data after) ->
        (leader_signal r = true <-> LeaderConjuncts mm ma mpc r))
  /\ exists sigs,
       res_leader_signals (results after) = Some sigs
       /\ forall s, In s sigs <-> In s (data after) /\ LeaderConjuncts mm ma mpc s.
Proof.
  intros after.
  assert (Hrow : forall r, In r (data after) ->
                   (leader_signal r = true <-> LeaderConjuncts mm ma mpc r)).
  { intros r Hr. subst after. rewrite identify_leader_signals_data in Hr.
    apply in_map_iff in Hr. destruct Hr as [r0 [<- _]].
    exact (leader_signal_mask_iff mm ma mpc r0). }
  split; [reflexivity|]. split; [intros r; repeat split|]. split; [exact Hrow|].
  exists (filter leader_signal (data after)). split; [reflexivity|].
  intros s. rewrite filter_In. split.
  - intros [Hin Hs]. split; [exact Hin|]. apply Hrow; assumption.
  - intros [Hin Hs]. split; [exact Hin|]. apply Hrow; assumption.
Qed.

Lemma price_movements_head (x : Row) (sd : list Row) :
  exists rest,
    price_movements (x :: sd) = set_series x (series_at (x :: sd) [] x) :: rest.
Proof. eexists. reflexivity. Qed.

Lemma stock_data_In (s : string) (d : list Row) (r : Row) :
  In r (stock_data s d) <-> In r d /\ row_symbol r = s.
Proof. unfold stock_data. rewrite filter_In, String.eqb_eq. tauto. Qed.

(** In a run the rows of every symbol carry the columns computed from the
    loaded rows of that symbol. *)
Lemma flagged_stock_data (raw : list Bar) (prm : Params) (s : string) :
  stock_data s (data (flagged raw prm))
  = map (flag_row (money_multiplier prm) (min_amount prm) (min_price_change prm))
      (price_movements (stock_data s (data (load_data raw init_analyzer)))).
Proof.
  rewrite flagged_data, stock_data_flag_row. f_equal.
  destruct (in_dec string_dec s (stocks (load_data raw init_analyzer))) as [Hin|Hout].
  - apply fold_assign_stock_data; [apply load_data_stocks_NoDup|exact Hin].
  - rewrite fold_assign_untouched by exact Hout.
    destruct (stock_data s (data (load_data raw init_analyzer))) as [|r l] eqn:E;
      [reflexivity|].
    exfalso. apply Hout. apply load_data_stocks. exists r.
    apply stock_data_In. rewrite E. left. reflexivity.
Qed.

(** C9.  In a run the first row of every symbol has no [return_1min] and is
    not flagged, whatever the parameters. *)
Theorem first_bar_never_flagged (raw : list Bar) (prm : Params) (s : string)
    (r : Row) (rest : list Row) :
  stock_data s (data (flagged raw prm)) = r :: rest ->
  col_return_1min r = None /\ leader_signal r = false.
Proof.
  rewrite flagged_stock_data.
  destruct (stock_data s (data (load_data raw init_analyzer))) as [|x sd];
    [discriminate|].
  destruct (price_movements_head x sd) as [rest' ->]. simpl.
  intros H. injection H as <- _.
  split; [reflexivity|].
  rewrite flag_row_leader_signal. unfold leader_signal_mask.
  change (col_return_1min (set_series x (series_at (x :: sd) [] x))) with (@None Q).
  simpl. rewrite !andb_false_r. reflexivity.
Qed.

(** In the worked run the first bar of A (09:09) is not flagged although A's
    next bar is. *)
Lemma first_bar_never_flagged_witness :
  let rows := stock_data "A" (data (flagged ex_raw ex_params)) in
  map leader_signal rows = [false; true]
  /\ leader_signal (hd (with_large_columns (mkBar "" 0 0 0 0 0 0)) rows) = false.
Proof.
  split; [vm_compute; reflexivity|].
  apply (first_bar_never_flagged ex_raw ex_params "A" _
           (tl (stock_data "A" (data (flagged ex_raw ex_params))))).
  vm_compute. reflexivity.
Defined.

(** * Lookahead in the derived columns *)

(** The trailing columns of the first rows of a symbol do not change when
    the rows after them do. *)
Lemma with_series_trailing (all1 all2 hist pre post1 post2 : list Row) :
  map trailing_columns (firstn (List.length pre) (with_series all1 hist (pre ++ post1)))
  = map trailing_columns (firstn (List.length pre) (with_series all2 hist (pre ++ post2))).
Proof.
  revert hist. induction pre as [|r pre IH]; intros hist; simpl.
  - reflexivity.
  - f_equal. apply IH.
Qed.

Lemma price_movements_trailing (pre post1 post2 : list Row) :
  map trailing_columns (firstn (List.length pre) (price_movements (pre ++ post1)))
  = map trailing_columns (firstn (List.length pre) (price_movements (pre ++ post2))).
Proof. apply with_series_trailing. Qed.

(** ** The trailing columns in a run *)

Lemma StronglySorted_weaken_In {A : Type} (R S : A -> A -> Prop) (l : list A) :
  (forall a b, In a l -> In b l -> R a b -> S a b) ->
  StronglySorted R l -> StronglySorted S l.
Proof.
  intros HRS Hs. induction Hs as [|x l Hs IH Hall]; constructor.
  - apply IH. intros a b Ha Hb. apply HRS; right; assumption.
  - rewrite Forall_forall in *. intros y Hy.
    apply HRS; [left; reflexivity|right; exact Hy|exact (Hall y Hy)].
Qed.

Lemma stock_data_time_sorted (s : string) (d : list Row) :
  rows_sorted d ->
  StronglySorted (fun a b => row_datetime a <= row_datetime b) (stock_data s d).
Proof.
  intros H. apply StronglySorted_map_inv in H.
  apply (StronglySorted_filter _ (fun r => String.eqb (row_symbol r) s)) in H.
  eapply StronglySorted_weaken_In; [|exact H].
  intros a b Ha Hb Hab. apply Hab.
  apply stock_data_In in Ha. apply stock_data_In in Hb.
  unfold row_symbol in *. destruct Ha as [_ ->]. destruct Hb as [_ ->]. reflexivity.
Qed.

Lemma rows_up_to_none (m : Timestamp) (l : list Row) :
  Forall (fun r => m < row_datetime r) l -> rows_up_to m l = [].
Proof.
  induction 1 as [|r l Hr _ IH]; simpl; [reflexivity|].
  destruct (Z.leb_spec (row_datetime r) m); [lia|exact IH].
Qed.

Lemma rows_after_all (m : Timestamp) (l : list Row) :
  Forall (fun r => m < row_datetime r) l -> rows_after m l = l.
Proof.
  induction 1 as [|r l Hr _ IH]; simpl; [reflexivity|].
  destruct (Z.leb_spec (row_datetime r) m); [lia|]. simpl. rewrite IH. reflexivity.
Qed.

(** In a frame in time order the rows up to [m] come first. *)
Lemma time_sorted_split (m : Timestamp) (l : list Row) :
  StronglySorted (fun a b => row_datetime a <= row_datetime b) l ->
  l = rows_up_to m l ++ rows_after m l.
Proof.
  induction 1 as [|x l Hs IH Hall]; simpl; [reflexivity|].
  destruct (Z.leb_spec (row_datetime x) m) as [Hle|Hgt]; simpl.
  - f_equal. exact IH.
  - assert (Hlate : Forall (fun r => m < row_datetime r) l).
    { eapply Forall_impl; [|exact Hall]. simpl. intros r Hr. lia. }
    rewrite (rows_up_to_none m l Hlate), (rows_after_all m l Hlate). reflexivity.
Qed.

Lemma rows_up_to_late_bars (m : Timestamp) (X post : list Row) :
  map bar X = map bar post ->
  Forall (fun r => m < row_datetime r) post ->
  rows_up_to m X = [].
Proof.
  intros Hbar Hpost. apply rows_up_to_none.
  revert X Hbar. induction Hpost as [|r post Hr _ IH]; intros [|x X] Hbar;
    simpl in Hbar; try discriminate; constructor.
  - injection Hbar as Hx _. unfold row_datetime in *. rewrite Hx. exact Hr.
  - injection Hbar as _ HX. exact (IH X HX).
Qed.

Lemma rows_up_to_prefix (m : Timestamp) (X pre post : list Row) :
  map bar X = map bar (pre ++ post) ->
  Forall (fun r => row_datetime r <= m) pre ->
  Forall (fun r => m < row_datetime r) post ->
  rows_up_to m X = firstn (List.length pre) X.
Proof.
  intros Hbar Hpre Hpost. revert X Hbar.
  induction Hpre as [|a pre Ha _ IH]; intros X Hbar; simpl in *.
  - rewrite (rows_up_to_late_bars m X post Hbar Hpost).
    destruct X; reflexivity.
  - destruct X as [|x X]; simpl in Hbar; [discriminate|].
    injection Hbar as Hx HX. simpl.
    unfold row_datetime in *. rewrite Hx.
    destruct (Z.leb_spec (datetime (bar a)) m); [|lia].
    f_equal. exact (IH X HX).
Qed.

Lemma trailing_columns_flag_row (mm ma mpc : Q) (l : list Row) :
  map trailing_columns (map (flag_row mm ma mpc) l) = map trailing_columns l.
Proof. rewrite map_map. apply map_ext. reflexivity. Qed.

(** The rows of a symbol up to [m] in a run, as a prefix of the computed
    frame of the symbol. *)
Lemma flagged_rows_up_to (raw : list Bar) (prm : Params) (s : string) (m : Timestamp) :
  let loaded := stock_data s (data (load_data raw init_analyzer)) in
  map trailing_columns (rows_up_to m (stock_data s (data (flagged raw prm))))
  = map trailing_columns
      (firstn (List.length (rows_up_to m loaded))
         (price_movements (rows_up_to m loaded ++ rows_after m loaded))).
Proof.
  intros loaded.
  pose proof (time_sorted_split m loaded
                (stock_data_time_sorted s _ (load_data_sorted raw init_analyzer)))
    as Hsplit.
  rewrite flagged_stock_data. fold loaded.
  rewrite (rows_up_to_prefix m _ (rows_up_to m loaded) (rows_after m loaded)).
  - rewrite firstn_map, trailing_columns_flag_row, <- Hsplit. reflexivity.
  - rewrite map_map.
    rewrite (map_ext _ bar) by (intros; apply flag_row_bar).
    rewrite price_movements_bar. f_equal. exact Hsplit.
  - apply Forall_forall. intros r Hr. apply filter_In in Hr.
    apply Z.leb_le. tauto.
  - apply Forall_forall. intros r Hr. apply filter_In in Hr.
    destruct Hr as [_ Hr]. apply negb_true_iff, Z.leb_gt in Hr. exact Hr.
Qed.

(** When two inputs load the same rows of a symbol up to minute [m], the
    runs agree on [return_1min], [rolling_max_30min], [is_30min_high] and
    [large_total_ma30] of those rows, whatever comes later and whatever the
    parameters. *)
Lemma trailing_columns_no_lookahead (raw1 raw2 : list Bar) (prm1 prm2 : Params)
    (s : string) (m : Timestamp) :
  rows_up_to m (stock_data s (data (load_data raw1 init_analyzer)))
  = rows_up_to m (stock_data s (data (load_data raw2 init_analyzer))) ->
  map trailing_columns (rows_up_to m (stock_data s (data (flagged raw1 prm1))))
  = map trailing_columns (rows_up_to m (stock_data s (data (flagged raw2 prm2)))).
Proof.
  intros Hagree. rewrite !flagged_rows_up_to. cbv zeta.
  rewrite Hagree. apply price_movements_trailing.
Qed.

Example trailing_columns_no_lookahead_example :
  map trailing_columns
    (rows_up_to (at_hm 9 1) (stock_data "A" (data (flagged lookahead_short ex_params))))
  = map trailing_columns
      (rows_up_to (at_hm 9 1) (stock_data "A" (data (flagged lookahead_higher ex_params)))).
Proof. apply trailing_columns_no_lookahead. vm_compute. reflexivity. Qed.

(** C5.  The claim fails on [daily_high], [daily_low], [is_daily_high] and
    [is_daily_low]: they are computed by [groupby(date).transform] over the
    whole day.  The inputs below agree on A's history up to 09:01, and the
    columns of A's row at 09:01 differ with the bar at 09:02. *)
Theorem daily_columns_look_ahead :
  up_to (at_hm 9 1) lookahead_higher = up_to (at_hm 9 1) lookahead_short
  /\ up_to (at_hm 9 1) lookahead_lower = up_to (at_hm 9 1) lookahead_short
  /\ option_map daily_high (series_at_time lookahead_short ex_params "A" (at_hm 9 1))
     = Some 100%Q
  /\ option_map daily_high (series_at_time lookahead_higher ex_params "A" (at_hm 9 1))
     = Some 101%Q
  /\ option_map is_daily_high (series_at_time lookahead_short ex_params "A" (at_hm 9 1))
     = Some true
  /\ option_map is_daily_high (series_at_time lookahead_higher ex_params "A" (at_hm 9 1))
     = Some false
  /\ option_map daily_low (series_at_time lookahead_short ex_params "A" (at_hm 9 1))
     = Some 100%Q
  /\ option_map daily_low (series_at_time lookahead_lower ex_params "A" (at_hm 9 1))
     = Some 99%Q
  /\ option_map is_daily_low (series_at_time lookahead_short ex_params "A" (at_hm 9 1))
     = Some true
  /\ option_map is_daily_low (series_at_time lookahead_lower ex_params "A" (at_hm 9 1))
     = Some false.
Proof. vm_compute. repeat split. Qed.

(** * Parameters are not validated *)

(** C6, as stated, fails: with [money_multiplier = 1/2] the run is not
    rejected; one signal is counted and stored, and a pair comes out. *)
Lemma low_multiplier_is_accepted :
  (money_multiplier ex_low_multiplier <= 1)%Q
  /\ fst (identify_leader_signals (money_multiplier ex_low_multiplier)
            (min_amount ex_low_multiplier) (min_price_change ex_low_multiplier)
            (calculate_price_movements (load_data ex_raw init_analyzer))) = 1
  /\ option_map (@List.length Row)
       (res_leader_signals (results (flagged ex_raw ex_low_multiplier))) = Some 1%nat
  /\ map (fun p => (leader_symbol p, follower_symbol p, follower_time p))
       (run_pairs ex_raw ex_low_multiplier)
     = [("A"%string, "B"%string, at_hm 9 18)].
Proof. vm_compute. repeat split. discriminate. Qed.

Lemma follower_window_data_empty (d : list Row) (f : string) (t1 t2 : Timestamp) :
  t2 <= t1 -> follower_window_data d f t1 t2 = [].
Proof.
  intros H. unfold follower_window_data.
  induction d as [|r d IH]; simpl; [reflexivity|].
  destruct (String.eqb (row_symbol r) f); simpl; [|exact IH].
  destruct (Z.ltb_spec t1 (row_datetime r)); simpl; [|exact IH].
  destruct (Z.leb_spec (row_datetime r) t2); simpl; [lia|exact IH].
Qed.

Lemma match_follower_empty_window (d : list Row) (lag : Z) (mg : Q) (signal : Row)
    (f : string) :
  lag <= 0 -> match_follower d lag mg signal f = None.
Proof.
  intros H. unfold match_follower.
  destruct (String.eqb f (row_symbol signal)); [reflexivity|].
  destruct (iloc_last _); [|reflexivity].
  rewrite follower_window_data_empty by (unfold timedelta_minutes; lia).
  reflexivity.
Qed.

Lemma flat_map_nil {A B : Type} (g : A -> list B) (l : list A) :
  (forall a, In a l -> g a = []) -> flat_map g l = [].
Proof.
  induction l as [|a l IH]; intros H; simpl; [reflexivity|].
  rewrite (H a) by (left; reflexivity).
  apply IH. intros b Hb. apply H. right. exact Hb.
Qed.

(** C6, amended.  No parameter is checked and no call is rejected.  With
    [max_lag_minutes <= 0] the window of every signal is empty: the matcher
    returns the empty frame and stores nothing.  The signal identifier
    applies the predicate with whatever multiplier it is given. *)
Theorem nonpositive_lag_matches_nothing (lag : Z) (mg mm ma mpc : Q) (self : Analyzer) :
  lag <= 0 ->
  analyze_leader_follower_relationships lag mg self = ([], self)
  /\ forall r, In r (data (snd (identify_leader_signals mm ma mpc self))) ->
       (leader_signal r = true <-> LeaderConjuncts mm ma mpc r).
Proof.
  intros Hlag. split.
  - unfold analyze_leader_follower_relationships.
    replace (leader_follower_pairs (data self) (stocks self) lag mg)
      with (@nil Pair); [reflexivity|].
    symmetry. unfold leader_follower_pairs.
    apply flat_map_nil. intros signal _.
    apply flat_map_nil. intros f _.
    rewrite match_follower_empty_window by exact Hlag. reflexivity.
  - intros r Hr. rewrite identify_leader_signals_data in Hr.
    apply in_map_iff in Hr. destruct Hr as [r0 [<- _]].
    exact (leader_signal_mask_iff mm ma mpc r0).
Qed.

Lemma nonpositive_lag_matches_nothing_witness :
  analyze_leader_follower_relationships 0 (1 # 2) (flagged ex_raw ex_params)
  = ([], flagged ex_raw ex_params).
Proof.
  apply (nonpositive_lag_matches_nothing 0 (1 # 2) (1 # 2) 0 0
           (flagged ex_raw ex_params)).
  lia.
Defined.

(** * The aggregator *)

(** ** Two sorting routines within the interface *)

Lemma stable_sort_count_geb_sorted (t : list RankRow) :
  StronglySorted count_desc (stable_sort count_geb t).
Proof.
  eapply StronglySorted_weaken; [|apply stable_sort_sorted].
  - intros a b H. apply Z.leb_le. exact H.
  - intros a b. unfold count_geb. rewrite !Z.leb_le. lia.
  - intros a b c. unfold count_geb. rewrite !Z.leb_le. lia.
Qed.

(** What [kind='stable'] would run: rows of equal count keep their order. *)
Definition stable_sort_values : SortValues :=
  {| sort_values_desc := stable_sort count_geb;
     sort_values_perm := stable_sort_perm count_geb;
     sort_values_sorted := stable_sort_count_geb_sorted |}.















(** ** The summary of an empty frame *)




(** ** The ranking that the claim describes *)





(** ** What every sorting routine gives *)

Lemma key_compare_eq (k1 k2 : list string) : key_compare k1 k2 = Eq <-> k1 = k2.
Proof.
  revert k2. induction k1 as [|a k1 IH]; intros [|b k2]; simpl;
    try (split; [discriminate|discriminate]); try tauto.
  destruct (String.compare a b) eqn:E.
  - apply string_compare_eq in E. subst b. rewrite IH. split; congruence.
  - split; [discriminate|]. intros H. injection H as -> _.
    rewrite string_compare_refl in E. discriminate.
  - split; [discriminate|]. intros H. injection H as -> _.
    rewrite string_compare_refl in E. discriminate.
Qed.

Lemma key_eqb_eq (k1 k2 : list string) : key_eqb k1 k2 = true <-> k1 = k2.
Proof.
  unfold key_eqb. rewrite <- key_compare_eq.
  destruct (key_compare k1 k2); split; congruence.
Qed.

Lemma groupby_agg_keys (key : Pair -> list string) (cols : list (Pair -> Q))
    (pairs : list Pair) :
  map rank_key (groupby_agg key cols pairs)
  = stable_sort key_leb (unique key_eqb (map key pairs)).
Proof.
  unfold groupby_agg. rewrite map_map. simpl. apply map_id.
Qed.

Lemma groupby_agg_count (key : Pair -> list string) (cols : list (Pair -> Q))
    (pairs : list Pair) (row : RankRow) :
  In row (groupby_agg key cols pairs) ->
  rank_count row = pairs_with_key key (rank_key row) pairs.
Proof.
  unfold groupby_agg. intros H. apply in_map_iff in H.
  destruct H as [k [<- _]]. reflexivity.
Qed.

Lemma sorted_groupby_ranking (sv : SortValues) (key : Pair -> list string)
    (cols : list (Pair -> Q)) (pairs : list Pair) :
  Ranking key pairs (sort_values_desc sv (groupby_agg key cols pairs)).
Proof.
  pose proof (sort_values_perm sv (groupby_agg key cols pairs)) as Hperm.
  pose proof (Permutation_map rank_key Hperm) as Hkeys.
  rewrite groupby_agg_keys in Hkeys.
  constructor.
  - apply sort_values_sorted.
  - eapply Permutation_NoDup; [exact Hkeys|].
    eapply Permutation_NoDup; [apply stable_sort_perm|].
    apply (unique_NoDup key_eqb key_eqb_eq).
  - intros k.
    rewrite <- (unique_In key_eqb key_eqb_eq (map key pairs)).
    rewrite <- (stable_sort_In key_leb (unique key_eqb (map key pairs))).
    split.
    + apply Permutation_in. apply Permutation_sym. exact Hkeys.
    + apply Permutation_in. exact Hkeys.
  - intros row Hrow. apply (groupby_agg_count key cols).
    apply (Permutation_in row (Permutation_sym Hperm)). exact Hrow.
Qed.


(** ** With a stable sort the rows of equal count would stay in key order *)

Lemma key_compare_antisym (k1 k2 : list string) :
  key_compare k1 k2 = CompOpp (key_compare k2 k1).
Proof.
  revert k2. induction k1 as [|a k1 IH]; intros [|b k2]; simpl; try reflexivity.
  pose proof (String_as_OT.cmp_antisym a b) as Hab.
  unfold String_as_OT.cmp in Hab. rewrite Hab.
  destruct (String.compare b a); simpl; [apply IH|reflexivity|reflexivity].
Qed.

Lemma key_compare_lt_trans (k1 k2 k3 : list string) :
  key_compare k1 k2 = Lt -> key_compare k2 k3 = Lt -> key_compare k1 k3 = Lt.
Proof.
  revert k2 k3. induction k1 as [|a k1 IH]; intros [|b k2] [|c k3]; simpl;
    try discriminate; try reflexivity.
  destruct (String.compare a b) eqn:Eab; try discriminate;
    destruct (String.compare b c) eqn:Ebc; try discriminate; intros H1 H2.
  - apply string_compare_eq in Eab. apply string_compare_eq in Ebc. subst.
    rewrite string_compare_refl. exact (IH _ _ H1 H2).
  - apply string_compare_eq in Eab. subst. rewrite Ebc. reflexivity.
  - apply string_compare_eq in Ebc. subst. rewrite Eab. reflexivity.
  - rewrite (string_compare_lt_trans _ _ _ Eab Ebc). reflexivity.
Qed.

Lemma key_leb_total (k1 k2 : list string) :
  key_leb k1 k2 = true \/ key_leb k2 k1 = true.
Proof.
  unfold key_leb. rewrite (key_compare_antisym k2 k1).
  destruct (key_compare k1 k2); simpl; tauto.
Qed.

Lemma key_leb_trans (k1 k2 k3 : list string) :
  key_leb k1 k2 = true -> key_leb k2 k3 = true -> key_leb k1 k3 = true.
Proof.
  unfold key_leb.
  destruct (key_compare k1 k2) eqn:E12; try discriminate;
    destruct (key_compare k2 k3) eqn:E23; try discriminate; intros _ _.
  - apply key_compare_eq in E12. subst. rewrite E23. reflexivity.
  - apply key_compare_eq in E12. subst. rewrite E23. reflexivity.
  - apply key_compare_eq in E23. subst. rewrite E12. reflexivity.
  - rewrite (key_compare_lt_trans _ _ _ E12 E23). reflexivity.
Qed.

Lemma StronglySorted_NoDup_strict (l : list (list string)) :
  StronglySorted (fun a b => key_leb a b = true) l -> NoDup l ->
  StronglySorted (fun a b => key_compare a b = Lt) l.
Proof.
  induction 1 as [|x l Hs IH Hall]; intros Hnd; constructor;
    inversion Hnd as [|? ? Hnotin Hnd']; subst.
  - exact (IH Hnd').
  - rewrite Forall_forall in *. intros y Hy.
    specialize (Hall y Hy). unfold key_leb in Hall.
    destruct (key_compare x y) eqn:E; try discriminate; [|reflexivity].
    apply key_compare_eq in E. subst. contradiction.
Qed.

(** [groupby] hands the rows over with their keys strictly ascending. *)
Lemma groupby_agg_key_sorted (key : Pair -> list string) (cols : list (Pair -> Q))
    (pairs : list Pair) :
  StronglySorted (fun a b => key_compare (rank_key a) (rank_key b) = Lt)
    (groupby_agg key cols pairs).
Proof.
  apply (StronglySorted_map_inv (fun a b => key_compare a b = Lt) rank_key).
  rewrite groupby_agg_keys.
  apply StronglySorted_NoDup_strict.
  - apply stable_sort_sorted; [apply key_leb_total|apply key_leb_trans].
  - eapply Permutation_NoDup; [apply stable_sort_perm|].
    apply (unique_NoDup key_eqb key_eqb_eq).
Qed.

Lemma ranked_before_count (a b : RankRow) : ranked_before a b -> rank_count b <= rank_count a.
Proof. unfold ranked_before. lia. Qed.

Lemma insert_sorted_ranked (x : RankRow) (l : list RankRow) :
  StronglySorted ranked_before l ->
  Forall (fun z => key_compare (rank_key x) (rank_key z) = Lt) l ->
  StronglySorted ranked_before (insert_sorted count_geb x l).
Proof.
  induction 1 as [|y l Hs IH Hall]; intros Hkeys; simpl.
  - repeat constructor.
  - inversion Hkeys as [|? ? Hxy Hkeys']; subst.
    unfold count_geb at 1. destruct (Z.leb_spec (rank_count y) (rank_count x)).
    + constructor; [constructor; assumption|].
      rewrite Forall_forall in *. intros z Hz.
      assert (Hcz : rank_count z <= rank_count x).
      { destruct Hz as [<-|Hz]; [assumption|].
        pose proof (ranked_before_count _ _ (Hall z Hz)). lia. }
      unfold ranked_before.
      destruct (Z.eq_dec (rank_count x) (rank_count z)) as [E|E]; [right|left; lia].
      split; [exact E|]. apply Hkeys. exact Hz.
    + constructor; [exact (IH Hkeys')|].
      rewrite Forall_forall in *. intros z Hz.
      apply (Permutation_in z (Permutation_sym (insert_sorted_perm count_geb x l))) in Hz.
      destruct Hz as [<-|Hz]; [left; lia|exact (Hall z Hz)].
Qed.

Lemma stable_sort_ranked (t : list RankRow) :
  StronglySorted (fun a b => key_compare (rank_key a) (rank_key b) = Lt) t ->
  count_then_key_order (stable_sort count_geb t).
Proof.
  unfold count_then_key_order.
  induction 1 as [|x l Hs IH Hall]; simpl.
  - constructor.
  - apply insert_sorted_ranked; [exact IH|].
    rewrite Forall_forall in *. intros z Hz. apply Hall.
    apply (stable_sort_In count_geb). exact Hz.
Qed.

(** The order that the claim describes is the one a stable sort of the
    grouped rows would give. *)
Lemma stable_sort_values_keep_key_order (pairs : list Pair) :
  count_then_key_order (leader_ranking stable_sort_values pairs)
  /\ count_then_key_order (follower_ranking stable_sort_values pairs)
  /\ count_then_key_order (best_pairs stable_sort_values pairs).
Proof.
  repeat split; apply stable_sort_ranked; apply groupby_agg_key_sorted.
Qed.

(** * Further properties of the analysis methods *)

From Stdlib Require Import Lqa.

(** ** Counting rows by key *)

Lemma filter_comm {A : Type} (f g : A -> bool) (l : list A) :
  filter f (filter g l) = filter g (filter f l).
Proof.
  induction l as [|x l IH]; simpl; [reflexivity|].
  destruct (f x) eqn:Ef, (g x) eqn:Eg; simpl; rewrite ?Ef, ?Eg, IH; reflexivity.
Qed.

Lemma list_sum_indicator {K : Type} (eqb : K -> K -> bool)
    (eqb_spec : forall a b, eqb a b = true <-> a = b) (k0 : K) (ks : list K) :
  NoDup ks -> In k0 ks ->
  list_sum (map (fun k => if eqb k0 k then 1 else 0)%nat ks) = 1%nat.
Proof.
  induction 1 as [|k ks Hnotin Hnd IH]; intros Hin; [destruct Hin|]. simpl.
  destruct (eqb k0 k) eqn:E.
  - apply eqb_spec in E. subst k.
    assert (Hzero : list_sum (map (fun k => if eqb k0 k then 1 else 0)%nat ks) = 0%nat).
    { clear IH Hin Hnd. induction ks as [|k ks IH]; simpl; [reflexivity|].
      destruct (eqb k0 k) eqn:E.
      - apply eqb_spec in E. subst k. exfalso. apply Hnotin. left. reflexivity.
      - apply IH. intros H. apply Hnotin. right. exact H. }
    rewrite Hzero. reflexivity.
  - destruct Hin as [->|Hin].
    + assert (eqb k0 k0 = true) by (apply eqb_spec; reflexivity). congruence.
    + rewrite (IH Hin). reflexivity.
Qed.

Lemma list_sum_map_plus {K : Type} (f g : K -> nat) (ks : list K) :
  (list_sum (map f ks) + list_sum (map g ks))%nat
  = list_sum (map (fun k => f k + g k)%nat ks).
Proof.
  induction ks as [|k ks IH]; simpl; [reflexivity|]. rewrite <- IH. lia.
Qed.

(** Rows counted key by key, over a list that holds every key once, are all
    the rows. *)
Lemma count_by_key {A K : Type} (eqb : K -> K -> bool)
    (eqb_spec : forall a b, eqb a b = true <-> a = b)
    (key : A -> K) (ks : list K) (l : list A) :
  NoDup ks -> (forall x, In x l -> In (key x) ks) ->
  list_sum (map (fun k => List.length (filter (fun x => eqb (key x) k) l)) ks)
  = List.length l.
Proof.
  intros Hnd. induction l as [|x l IH]; intros Hkeys.
  - clear Hnd Hkeys. induction ks as [|k ks IHk]; simpl; [reflexivity|exact IHk].
  - specialize (IH (fun y Hy => Hkeys y (or_intror Hy))).
    pose proof (list_sum_indicator eqb eqb_spec (key x) ks Hnd
                  (Hkeys x (or_introl eq_refl))) as Hone.
    transitivity
      (list_sum (map (fun k => if eqb (key x) k then 1 else 0)%nat ks)
       + list_sum (map (fun k => List.length (filter (fun y => eqb (key y) k) l)) ks))%nat;
      [|rewrite Hone, IH; reflexivity].
    rewrite list_sum_map_plus. f_equal. apply map_ext. intros k. simpl.
    destruct (eqb (key x) k); reflexivity.
Qed.

Lemma fold_left_Zadd (g : string -> Z) (syms : list string) (a : Z) :
  fold_left (fun acc sym => acc + g sym) syms a
  = a + fold_left (fun acc sym => acc + g sym) syms 0.
Proof.
  revert a. induction syms as [|s syms IH]; intros a; simpl; [lia|].
  rewrite (IH (a + g s)), (IH (g s)). lia.
Qed.

Lemma fold_left_count (h : string -> nat) (syms : list string) :
  fold_left (fun acc sym => acc + Z.of_nat (h sym)) syms 0
  = Z.of_nat (list_sum (map h syms)).
Proof.
  induction syms as [|s syms IH]; simpl; [reflexivity|].
  rewrite fold_left_Zadd, IH. lia.
Qed.

(** The sum that [identify_leader_signals] prints and returns, when
    [self.stocks] holds every symbol of [self.data] once. *)
Lemma count_over_stocks (f : Row -> bool) (syms : list string) (d : list Row) :
  NoDup syms -> (forall r, In r d -> In (row_symbol r) syms) ->
  fold_left (fun acc sym => acc + count_true f (stock_data sym d)) syms 0
  = count_true f d.
Proof.
  intros Hnd Hsyms. unfold count_true.
  rewrite (fold_left_count (fun sym => List.length (filter f (stock_data sym d)))).
  f_equal.
  rewrite <- (count_by_key String.eqb String.eqb_eq row_symbol syms (filter f d) Hnd).
  - f_equal. apply map_ext. intros sym. unfold stock_data.
    rewrite filter_comm. reflexivity.
  - intros r Hr. apply filter_In in Hr. apply Hsyms. tauto.
Qed.

Lemma flagged_symbol_in_stocks (raw : list Bar) (prm : Params) (r : Row) :
  In r (data (flagged raw prm)) -> In (row_symbol r) (stocks (flagged raw prm)).
Proof.
  intros H. rewrite flagged_stocks. apply load_data_stocks.
  apply (in_map bar) in H. rewrite flagged_bar in H.
  apply in_map_iff in H. destruct H as [r0 [Hb H0]].
  exists r0. split; [exact H0|]. unfold row_symbol. rewrite Hb. reflexivity.
Qed.

(** ** [identify_leader_signals] *)

(** X1.  After [identify_leader_signals] every row with the enhanced flag
    also has the leader flag, stands at its daily high and has a large total
    over one and a half times the multiplied baseline. *)
Theorem enhanced_signals_are_leader_signals (mm ma mpc : Q) (self : Analyzer) (r : Row) :
  In r (data (snd (identify_leader_signals mm ma mpc self))) ->
  enhanced_leader_signal r = true ->
  leader_signal r = true
  /\ col_is_daily_high r = true
  /\ exists ma30, col_large_total_ma30 r = Some ma30
                  /\ (ma30 * mm * (3 # 2) < large_total r)%Q.
Proof.
  rewrite identify_leader_signals_data. intros Hr.
  apply in_map_iff in Hr. destruct Hr as [r0 [<- _]].
  unfold flag_row. cbn [enhanced_leader_signal set_enhanced_leader_signal].
  unfold enhanced_signal_mask. rewrite !andb_true_iff, gt_nan_iff.
  intros [[Hl [y [Hy Hlt]]] Hd].
  split; [exact Hl|]. split; [exact Hd|].
  unfold nan_mul in Hy.
  change (col_large_total_ma30
            (set_leader_signal r0 (leader_signal_mask mm ma mpc r0)))
    with (col_large_total_ma30 r0) in Hy.
  change (col_large_total_ma30 (set_enhanced_leader_signal _ _))
    with (col_large_total_ma30 r0).
  destruct (col_large_total_ma30 r0) as [m|]; simpl in Hy; [|discriminate].
  injection Hy as <-. exists m. split; [reflexivity|exact Hlt].
Qed.

(** In the worked run with multiplier 1/2 the signal of A is enhanced. *)
Lemma enhanced_signals_are_leader_signals_witness :
  let r := nth 1 (data (flagged ex_raw ex_low_multiplier))
             (with_large_columns (mkBar "" 0 0 0 0 0 0)) in
  enhanced_leader_signal r = true /\ leader_signal r = true.
Proof.
  intros r.
  assert (Hin : In r (data (snd (identify_leader_signals (1 # 2) 5000000 (3 # 1000)
                     (calculate_price_movements (load_data ex_raw init_analyzer))))))
    by (vm_compute; tauto).
  assert (He : enhanced_leader_signal r = true) by (vm_compute; reflexivity).
  split; [exact He|].
  exact (proj1 (enhanced_signals_are_leader_signals _ _ _ _ r Hin He)).
Defined.

(** X2.  In a run with at least one bar within trading hours, the count
    that [identify_leader_signals] returns, summed stock by stock, is the
    number of flagged rows, which is the number of rows stored as
    [results['leader_signals']].  (With no bar kept [self.stocks] is empty,
    the derived columns are never created and the method raises a
    [KeyError] instead.) *)
Theorem signal_count_is_number_of_signals (raw : list Bar) (prm : Params) :
  filter trading_mask raw <> [] ->
  exists sigs,
    res_leader_signals (results (flagged raw prm)) = Some sigs
    /\ sigs = filter leader_signal (data (flagged raw prm))
    /\ fst (identify_leader_signals (money_multiplier prm) (min_amount prm)
              (min_price_change prm)
              (calculate_price_movements (load_data raw init_analyzer)))
       = Z.of_nat (List.length sigs).
Proof.
  intros _. exists (filter leader_signal (data (flagged raw prm))).
  split; [reflexivity|]. split; [reflexivity|].
  change (fst (identify_leader_signals (money_multiplier prm) (min_amount prm)
                 (min_price_change prm)
                 (calculate_price_movements (load_data raw init_analyzer))))
    with (fold_left
            (fun acc sym =>
               acc + count_true leader_signal (stock_data sym (data (flagged raw prm))))
            (stocks (flagged raw prm)) 0).
  apply count_over_stocks.
  - rewrite flagged_stocks. apply load_data_stocks_NoDup.
  - apply flagged_symbol_in_stocks.
Qed.

(** The worked run keeps its bars and counts the one signal that it stores. *)
Lemma signal_count_is_number_of_signals_witness :
  exists sigs,
    res_leader_signals (results (flagged ex_raw ex_params)) = Some sigs
    /\ fst (identify_leader_signals (money_multiplier ex_params) (min_amount ex_params)
              (min_price_change ex_params)
              (calculate_price_movements (load_data ex_raw init_analyzer)))
       = Z.of_nat (List.length sigs).
Proof.
  assert (Hkept : filter trading_mask ex_raw <> []) by (vm_compute; discriminate).
  destruct (signal_count_is_number_of_signals ex_raw ex_params Hkept)
    as [sigs [Hstored [_ Hcount]]].
  exists sigs. split; assumption.
Defined.

(** ** [analyze_leader_follower_relationships]: more on the pairs *)

Lemma match_follower_leader_fields (d : list Row) (lag : Z) (mg : Q) (signal : Row)
    (f : string) (p : Pair) :
  match_follower d lag mg signal f = Some p ->
  leader_symbol p = row_symbol signal
  /\ leader_time p = row_datetime signal
  /\ leader_close p = row_close signal
  /\ leader_large_total p = large_total signal
  /\ leader_large_net p = large_net signal
  /\ leader_return_1min p = nan_mul (col_return_1min signal) 100
  /\ is_enhanced_signal p = enhanced_leader_signal signal.
Proof.
  unfold match_follower.
  destruct (String.eqb f (row_symbol signal)); [discriminate|].
  destruct (iloc_last _); [|discriminate].
  destruct (iloc_first _); [|discriminate].
  intros H. injection H as <-. simpl. repeat split.
Qed.

(** X3.  Every pair of a run carries the snapshot of a flagged row: its
    leader fields are the symbol, time, close, large total and large net of a
    row of [self.data] that has the leader flag and satisfies the five
    conjuncts, [leader_return_1min] is 100 times that row's return (over the
    floor), and [is_enhanced_signal] is that row's enhanced flag. *)
Theorem pair_leader_is_flagged_row (raw : list Bar) (prm : Params) (p : Pair) :
  In p (run_pairs raw prm) ->
  exists signal,
    In signal (data (flagged raw prm))
    /\ leader_signal signal = true
    /\ LeaderConjuncts (money_multiplier prm) (min_amount prm) (min_price_change prm) signal
    /\ leader_symbol p = row_symbol signal
    /\ leader_time p = row_datetime signal
    /\ leader_close p = row_close signal
    /\ leader_large_total p = large_total signal
    /\ leader_large_net p = large_net signal
    /\ is_enhanced_signal p = enhanced_leader_signal signal
    /\ exists ret, col_return_1min signal = Some ret
                   /\ leader_return_1min p = Some (ret * 100)%Q
                   /\ (min_price_change prm < ret)%Q.
Proof.
  intros Hp. apply run_pairs_In in Hp.
  destruct Hp as [signal [f [Hin [Hflag [_ Hm]]]]].
  apply match_follower_leader_fields in Hm.
  destruct Hm as [H1 [H2 [H3 [H4 [H5 [H6 H7]]]]]].
  assert (Hc : LeaderConjuncts (money_multiplier prm) (min_amount prm)
                 (min_price_change prm) signal).
  { rewrite flagged_data in Hin. apply in_map_iff in Hin.
    destruct Hin as [r0 [<- _]].
    exact (proj1 (leader_signal_mask_iff _ _ _ r0) Hflag). }
  exists signal. repeat (split; [assumption|]).
  destruct Hc as [_ [_ [_ [[ret [Hret Hlt]] _]]]].
  exists ret. rewrite H6, Hret. repeat split. exact Hlt.
Qed.

Lemma pair_leader_is_flagged_row_witness :
  exists signal,
    In signal (data (flagged ex_raw ex_params))
    /\ leader_signal signal = true
    /\ leader_time ex_pair = row_datetime signal.
Proof.
  assert (H : In ex_pair (run_pairs ex_raw ex_params))
    by (vm_compute; left; reflexivity).
  destruct (pair_leader_is_flagged_row ex_raw ex_params ex_pair H)
    as [signal [H1 [H2 [_ [_ [H3 _]]]]]].
  exists signal. repeat split; assumption.
Defined.

Lemma flat_map_length_le {A B : Type} (g : A -> list B) (k : nat) (l : list A) :
  (forall a, In a l -> List.length (g a) <= k)%nat ->
  (List.length (flat_map g l) <= List.length l * k)%nat.
Proof.
  induction l as [|a l IH]; intros H; simpl; [lia|].
  rewrite length_app.
  pose proof (H a (or_introl eq_refl)).
  pose proof (IH (fun b Hb => H b (or_intror Hb))). lia.
Qed.

Lemma flat_map_length_skip {A B : Type} (g : A -> list B) (a0 : A) (l : list A) :
  (forall a, List.length (g a) <= 1)%nat -> In a0 l -> g a0 = [] ->
  (List.length (flat_map g l) <= List.length l - 1)%nat.
Proof.
  intros Hone Hin Hnil. induction l as [|a l IH]; [destruct Hin|].
  simpl. rewrite length_app. destruct Hin as [->|Hin].
  - rewrite Hnil. simpl.
    pose proof (flat_map_length_le g 1 l (fun b _ => Hone b)). lia.
  - pose proof (Hone a). pose proof (IH Hin).
    destruct l as [|b l]; [destruct Hin|]. simpl in *. lia.
Qed.

Lemma match_follower_self (d : list Row) (lag : Z) (mg : Q) (signal : Row) :
  match_follower d lag mg signal (row_symbol signal) = None.
Proof. unfold match_follower. rewrite String.eqb_refl. reflexivity. Qed.

(** X4.  A signal gives at most one pair for each other stock and none for
    its own: a run has at most (signals) x (stocks - 1) pairs. *)
Theorem pair_count_bound (raw : list Bar) (prm : Params) :
  (List.length (run_pairs raw prm)
   <= List.length (filter leader_signal (data (flagged raw prm)))
      * (List.length (stocks (flagged raw prm)) - 1))%nat.
Proof.
  unfold run_pairs. rewrite analyze_fst. unfold leader_follower_pairs.
  apply flat_map_length_le. intros signal Hs. apply filter_In in Hs.
  apply flat_map_length_skip with (a0 := row_symbol signal).
  - intros f. destruct (match_follower _ _ _ signal f); simpl; lia.
  - apply flagged_symbol_in_stocks. tauto.
  - rewrite match_follower_self. reflexivity.
Qed.

(** ** Widening the window *)

Lemma follower_window_data_narrow (d : list Row) (f : string) (t e1 e2 : Timestamp) :
  e1 <= e2 ->
  follower_window_data d f t e1
  = filter (fun r => row_datetime r <=? e1) (follower_window_data d f t e2).
Proof.
  intros He. unfold follower_window_data.
  induction d as [|r d IH]; simpl; [reflexivity|].
  destruct (String.eqb (row_symbol r) f); simpl; [|exact IH].
  destruct (Z.ltb_spec t (row_datetime r)); simpl; [|exact IH].
  destruct (Z.leb_spec (row_datetime r) e1), (Z.leb_spec (row_datetime r) e2);
    simpl; try lia.
  - destruct (Z.leb_spec (row_datetime r) e1); [|lia]. rewrite IH. reflexivity.
  - destruct (Z.leb_spec (row_datetime r) e1); [lia|]. exact IH.
  - exact IH.
Qed.

Lemma iloc_first_filter_sorted (e : Timestamp) (l : list Row) (x : Row) :
  StronglySorted (fun a b => row_datetime a <= row_datetime b) l ->
  iloc_first (filter (fun r => row_datetime r <=? e) l) = Some x ->
  iloc_first l = Some x.
Proof.
  intros Hs. destruct Hs as [|y l Hs Hall]; simpl; [discriminate|].
  destruct (Z.leb_spec (row_datetime y) e) as [Hle|Hgt]; simpl; [tauto|].
  intros Hx. exfalso.
  assert (Hin : In x (filter (fun r => row_datetime r <=? e) l)).
  { destruct (filter _ l); simpl in Hx; [discriminate|].
    injection Hx as ->. left. reflexivity. }
  apply filter_In in Hin. destruct Hin as [Hin Hxe].
  apply Z.leb_le in Hxe. rewrite Forall_forall in Hall.
  specialize (Hall x Hin). lia.
Qed.

Lemma significant_window_time_sorted (d : list Row) (f : string) (t e : Timestamp)
    (mg base : Q) :
  rows_sorted d ->
  StronglySorted (fun a b => row_datetime a <= row_datetime b)
    (significant_gains mg base (follower_window_data d f t e)).
Proof.
  intros H. apply StronglySorted_map_inv in H.
  unfold significant_gains, follower_window_data.
  apply StronglySorted_filter.
  eapply StronglySorted_weaken_In; [|apply StronglySorted_filter; exact H].
  intros a b Ha Hb Hab. apply Hab.
  apply filter_In in Ha. apply filter_In in Hb.
  destruct Ha as [_ Ha]. destruct Hb as [_ Hb].
  rewrite !andb_true_iff, String.eqb_eq in Ha, Hb.
  unfold row_symbol in *. destruct Ha as [[-> _] _]. destruct Hb as [[-> _] _].
  reflexivity.
Qed.

Lemma match_follower_widen (d : list Row) (lag1 lag2 : Z) (mg : Q) (signal : Row)
    (f : string) (p : Pair) :
  rows_sorted d -> lag1 <= lag2 ->
  match_follower d lag1 mg signal f = Some p ->
  match_follower d lag2 mg signal f = Some p.
Proof.
  intros Hsorted Hlag. unfold match_follower.
  destruct (String.eqb f (row_symbol signal)); [discriminate|].
  destruct (iloc_last _) as [base_row|]; [|discriminate].
  rewrite (follower_window_data_narrow d f (row_datetime signal)
             (row_datetime signal + timedelta_minutes lag1)
             (row_datetime signal + timedelta_minutes lag2))
    by (unfold timedelta_minutes; lia).
  unfold significant_gains at 1. rewrite filter_comm.
  fold (significant_gains mg (row_close base_row)
          (follower_window_data d f (row_datetime signal)
             (row_datetime signal + timedelta_minutes lag2))).
  destruct (iloc_first (filter _ _)) as [first_gain|] eqn:E; [|discriminate].
  apply iloc_first_filter_sorted in E;
    [|apply significant_window_time_sorted; exact Hsorted].
  rewrite E. tauto.
Qed.

(** X5.  With the other parameters fixed, every pair that a run finds with
    window [lag1] is found, field for field, with any wider window [lag2]. *)
Theorem wider_window_keeps_pairs (raw : list Bar) (mm ma mpc mg : Q) (lag1 lag2 : Z)
    (p : Pair) :
  lag1 <= lag2 ->
  In p (run_pairs raw (mkParams mm ma mpc lag1 mg)) ->
  In p (run_pairs raw (mkParams mm ma mpc lag2 mg)).
Proof.
  intros Hlag Hp. apply run_pairs_In in Hp. apply run_pairs_In.
  destruct Hp as [signal [f [Hin [Hflag [Hf Hm]]]]].
  exists signal, f. repeat split; try assumption.
  simpl in *. apply (match_follower_widen _ lag1); try assumption.
  apply (flagged_sorted raw (mkParams mm ma mpc lag1 mg)).
Qed.

Lemma wider_window_keeps_pairs_witness :
  In ex_pair (run_pairs ex_raw (mkParams (13 # 10) 5000000 (3 # 1000) 10 (1 # 2)))
  /\ In ex_pair (run_pairs ex_raw (mkParams (13 # 10) 5000000 (3 # 1000) 30 (1 # 2))).
Proof.
  assert (H : In ex_pair
                (run_pairs ex_raw (mkParams (13 # 10) 5000000 (3 # 1000) 10 (1 # 2))))
    by (vm_compute; left; reflexivity).
  split; [exact H|].
  apply (wider_window_keeps_pairs ex_raw _ _ _ _ 10 30 ex_pair); [lia|exact H].
Defined.

(** ** A response is a rise *)

Lemma gain_pct_positive (base close : Q) :
  (0 < base)%Q -> (0 < gain_pct base close)%Q -> (base < close)%Q.
Proof.
  unfold gain_pct. intros Hb Hg.
  apply Qnot_le_lt. intros Hle.
  apply (Qlt_not_le _ _ Hg).
  assert (H1 : ((close - base) / base <= 0)%Q).
  { apply Qle_shift_div_r; [exact Hb|]. rewrite Qmult_0_l.
    apply (Qplus_le_l _ _ base). ring_simplify. exact Hle. }
  apply (Qmult_le_compat_r _ _ 100) in H1; [|discriminate].
  rewrite Qmult_0_l in H1. exact H1.
Qed.

(** X6.  When every close of the input is positive and the floor [min_gain]
    is positive, every pair of a run has a positive gain and a trigger price
    above its base price. *)
Theorem response_is_a_rise (raw : list Bar) (prm : Params) (p : Pair) :
  (forall b, In b raw -> (0 < close_price b)%Q) ->
  (0 < min_gain prm)%Q ->
  In p (run_pairs raw prm) ->
  (0 < follower_gain_pct p)%Q
  /\ (0 < follower_base_price p)%Q
  /\ (follower_base_price p < follower_trigger_price p)%Q.
Proof.
  intros Hpos Hmg Hp. apply run_pairs_In in Hp.
  destruct Hp as [signal [f [_ [_ [_ Hm]]]]].
  apply match_follower_Some in Hm. destruct Hm as [base_row [first_gain M]].
  destruct (matched_first_passage _ _ _ _ _ _ _ _ (flagged_sorted raw prm) M)
    as [[_ [_ [_ Hgain]]] _].
  destruct (matched_base_latest _ _ _ _ _ _ _ _ (flagged_sorted raw prm) M)
    as [[Hbase _] _].
  apply flagged_bar_In in Hbase. destruct Hbase as [Hbase _].
  specialize (Hpos _ Hbase).
  rewrite (matched_gain _ _ _ _ _ _ _ _ M), (matched_base_price _ _ _ _ _ _ _ _ M),
          (matched_trigger_price _ _ _ _ _ _ _ _ M).
  assert (Hg : (0 < gain_pct (row_close base_row) (row_close first_gain))%Q)
    by (eapply Qlt_le_trans; [exact Hmg|exact Hgain]).
  split; [exact Hg|]. split; [exact Hpos|].
  apply gain_pct_positive; assumption.
Qed.

Lemma response_is_a_rise_witness :
  (follower_base_price ex_pair < follower_trigger_price ex_pair)%Q.
Proof.
  apply (response_is_a_rise ex_raw ex_params ex_pair).
  - intros b Hb. vm_compute in Hb.
    repeat (destruct Hb as [<-|Hb]; [reflexivity|]). destruct Hb.
  - reflexivity.
  - vm_compute. left. reflexivity.
Defined.

(** ** [calculate_success_rates]: the statistics of a frame that is not empty *)

Definition zsum (l : list Z) : Z := fold_right Z.add 0 l.

Lemma zsum_perm (l1 l2 : list Z) : Permutation l1 l2 -> zsum l1 = zsum l2.
Proof.
  induction 1 as [| x l1 l2 _ IH | x y l | l1 l2 l3 _ IH1 _ IH2]; simpl; lia.
Qed.

Lemma zsum_of_nat (h : list nat) : zsum (map Z.of_nat h) = Z.of_nat (list_sum h).
Proof. induction h as [|n h IH]; simpl; [reflexivity|]. rewrite IH. lia. Qed.

Lemma sorted_groupby_count_sum (sv : SortValues) (key : Pair -> list string)
    (cols : list (Pair -> Q)) (pairs : list Pair) :
  zsum (map rank_count (sort_values_desc sv (groupby_agg key cols pairs)))
  = Z.of_nat (List.length pairs).
Proof.
  rewrite <- (zsum_perm _ _
                (Permutation_map rank_count
                   (sort_values_perm sv (groupby_agg key cols pairs)))).
  unfold groupby_agg. rewrite map_map. simpl.
  rewrite <- (map_map (fun k => List.length (filter (fun p => key_eqb (key p) k) pairs))
                Z.of_nat).
  rewrite zsum_of_nat. f_equal.
  apply (count_by_key key_eqb key_eqb_eq key).
  - eapply Permutation_NoDup; [apply stable_sort_perm|].
    apply (unique_NoDup key_eqb key_eqb_eq).
  - intros p Hp. apply (stable_sort_In key_leb).
    apply (unique_In key_eqb key_eqb_eq). apply in_map. exact Hp.
Qed.

(** X7.  In each of the three ranking tables the counts add up to the number
    of pairs, the value stored under [total_pairs]: every pair is counted in
    exactly one row of each table, whatever the sorting routine. *)
Theorem ranking_counts_add_up (sv : SortValues) (p : Pair) (ps : list Pair)
    (self : Analyzer) :
  let pairs_df := p :: ps in
  let stats := fst (calculate_success_rates sv pairs_df self) in
  dict_get "total_pairs" stats = Some (VCount (Z.of_nat (List.length pairs_df)))
  /\ (exists t, dict_get "leader_ranking" stats = Some (VTable t)
                /\ zsum (map rank_count t) = Z.of_nat (List.length pairs_df))
  /\ (exists t, dict_get "follower_ranking" stats = Some (VTable t)
                /\ zsum (map rank_count t) = Z.of_nat (List.length pairs_df))
  /\ (exists t, dict_get "best_pairs" stats = Some (VTable t)
                /\ zsum (map rank_count t) = Z.of_nat (List.length pairs_df)).
Proof.
  intros pairs_df stats. split; [reflexivity|].
  split; [|split]; eexists; (split; [reflexivity|apply sorted_groupby_count_sum]).
Qed.

(** ** Maximum and means *)

Lemma qmax_ge_l (x y : Q) : (x <= qmax x y)%Q.
Proof.
  unfold qmax. destruct (Qle_bool x y) eqn:E.
  - apply Qle_bool_iff. exact E.
  - apply Qle_refl.
Qed.

Lemma qmax_ge_r (x y : Q) : (y <= qmax x y)%Q.
Proof.
  unfold qmax. destruct (Qle_bool x y) eqn:E.
  - apply Qle_refl.
  - apply Qlt_le_weak. apply Qnot_le_lt. intros H.
    apply Qle_bool_iff in H. congruence.
Qed.

Lemma fold_qmax_ge_init (xs : list Q) (x : Q) : (x <= fold_left qmax xs x)%Q.
Proof.
  revert x. induction xs as [|y xs IH]; intros x; simpl.
  - apply Qle_refl.
  - eapply Qle_trans; [apply qmax_ge_l|apply IH].
Qed.

Lemma fold_qmax_ge_In (xs : list Q) (x z : Q) :
  In z xs -> (z <= fold_left qmax xs x)%Q.
Proof.
  revert x. induction xs as [|y xs IH]; intros x Hz; simpl; [destruct Hz|].
  destruct Hz as [->|Hz].
  - eapply Qle_trans; [apply qmax_ge_r|apply fold_qmax_ge_init].
  - apply IH. exact Hz.
Qed.

Lemma fold_qmax_In (xs : list Q) (x : Q) : In (fold_left qmax xs x) (x :: xs).
Proof.
  revert x. induction xs as [|y xs IH]; intros x; simpl; [left; reflexivity|].
  destruct (IH (qmax x y)) as [H|H].
  - rewrite <- H. unfold qmax. destruct (Qle_bool x y); tauto.
  - right. right. exact H.
Qed.

Lemma qmax_list_ge (l : list Q) (z : Q) : In z l -> (z <= qmax_list l)%Q.
Proof.
  destruct l as [|x xs]; intros Hz; [destruct Hz|]. simpl.
  destruct Hz as [->|Hz]; [apply fold_qmax_ge_init|apply fold_qmax_ge_In; exact Hz].
Qed.

Lemma qmax_list_In (l : list Q) : l <> [] -> In (qmax_list l) l.
Proof.
  destruct l as [|x xs]; intros H; [congruence|]. apply fold_qmax_In.
Qed.

(** X8.  On a frame that is not empty [max_follower_gain] is the gain of one
    of the pairs and no pair has a larger gain. *)
Theorem max_follower_gain_is_maximum (sv : SortValues) (p : Pair) (ps : list Pair)
    (self : Analyzer) :
  let pairs_df := p :: ps in
  exists m,
    dict_get "max_follower_gain" (fst (calculate_success_rates sv pairs_df self))
    = Some (VNum m)
    /\ (exists q, In q pairs_df /\ follower_gain_pct q = m)
    /\ (forall q, In q pairs_df -> (follower_gain_pct q <= m)%Q).
Proof.
  intros pairs_df. exists (qmax_list (map follower_gain_pct pairs_df)).
  split; [reflexivity|]. split.
  - assert (H : In (qmax_list (map follower_gain_pct pairs_df))
                  (map follower_gain_pct pairs_df))
      by (apply qmax_list_In; discriminate).
    apply in_map_iff in H. destruct H as [q [Hq Hin]]. exists q. tauto.
  - intros q Hq. apply qmax_list_ge. apply in_map. exact Hq.
Qed.

Lemma fold_left_Qplus_acc (l : list Q) (a : Q) :
  (fold_left Qplus l a == a + fold_left Qplus l 0)%Q.
Proof.
  revert a. induction l as [|x l IH]; intros a; simpl.
  - ring.
  - rewrite (IH (a + x)%Q), (IH (0 + x)%Q). ring.
Qed.

Lemma qsum_cons (x : Q) (l : list Q) : (qsum (x :: l) == x + qsum l)%Q.
Proof.
  unfold qsum. simpl. rewrite fold_left_Qplus_acc. ring.
Qed.

Lemma inject_length_cons {A : Type} (x : A) (l : list A) :
  (inject_Z (Z.of_nat (List.length (x :: l)))
   == inject_Z (Z.of_nat (List.length l)) + 1)%Q.
Proof.
  simpl List.length. rewrite Nat2Z.inj_succ. unfold Z.succ.
  rewrite inject_Z_plus. reflexivity.
Qed.

Lemma qsum_ge (c : Q) (l : list Q) :
  Forall (fun x => c <= x)%Q l ->
  (c * inject_Z (Z.of_nat (List.length l)) <= qsum l)%Q.
Proof.
  induction 1 as [|x l Hx _ IH].
  - unfold qsum. simpl. rewrite Qmult_0_r. apply Qle_refl.
  - rewrite qsum_cons, inject_length_cons. lra.
Qed.

Lemma inject_length_pos {A : Type} (x : A) (l : list A) :
  (0 < inject_Z (Z.of_nat (List.length (x :: l))))%Q.
Proof.
  change 0%Q with (inject_Z 0). rewrite <- Zlt_Qlt. simpl List.length. lia.
Qed.

Lemma qmean_gt (c x : Q) (l : list Q) :
  Forall (fun y => c < y)%Q (x :: l) -> (c < qmean (x :: l))%Q.
Proof.
  intros H. unfold qmean.
  apply Qlt_shift_div_l; [apply inject_length_pos|].
  inversion H as [|? ? Hx Hl]; subst.
  assert (Hl' : Forall (fun y => c <= y)%Q l)
    by (eapply Forall_impl; [|exact Hl]; intros y; apply Qlt_le_weak).
  pose proof (qsum_ge c l Hl') as Hsum.
  rewrite qsum_cons, inject_length_cons. lra.
Qed.


(** ** [run_complete_analysis] *)

(** What a completed run hands back: the dict entries [pairs_df] and
    [statistics] (the entry [report] is the text written to disk), and the
    two labels of the printed summary, [best_leader] and [best_pair], as they
    are read from the tables (the print strips their '.TW'). *)
Record RunResult : Type := mkRunResult {
  result_pairs_df : list Pair;
  result_statistics : Dict StatVal;
  result_best_leader : option (list string);
  result_best_pair : option (list string)
}.

(** [stats[table].index[0]] under the guards of the summary:
    [if stats], [table in stats] and [not stats[table].empty]. *)
Definition summary_index0 (stats : Dict StatVal) (table : string)
    : option (list string) :=
  match stats with
  | [] => None
  | _ :: _ =>
      match dict_get table stats with
      | Some (VTable (row :: _)) => Some (rank_key row)
      | _ => None
      end
  end.

(** The steps of [run_complete_analysis] of the sector analyzer, with its two
    early returns; reports and charts are written between step 5 and the
    summary and hand nothing back.  [raw] is what [load_data] read, with at
    least one bar within trading hours: on a frame with no row the columns
    of step 2 are never created and step 3 raises a [KeyError] out of the
    run, which is not modelled.  (The CSV analyzer has the same steps; there
    [load_data] also ends the run when no file is found, and the trend chart
    adds a [trade_date] column to the frame of pairs.) *)
Definition run_complete_analysis (sv : SortValues) (raw : list Bar) (prm : Params)
    : option RunResult * Analyzer :=
  let self1 := load_data raw init_analyzer in
  let self2 := calculate_price_movements self1 in
  let step3 := identify_leader_signals (money_multiplier prm) (min_amount prm)
                 (min_price_change prm) self2 in
  let signal_count := fst step3 in
  if signal_count =? 0 then (None, snd step3)
  else
    let step4 := analyze_leader_follower_relationships (max_lag_minutes prm)
                   (min_gain prm) (snd step3) in
    match fst step4 with
    | [] => (None, snd step4)
    | _ :: _ =>
        let step5 := calculate_success_rates sv (fst step4) (snd step4) in
        let stats := fst step5 in
        (Some {| result_pairs_df := fst step4;
                 result_statistics := stats;
                 result_best_leader := summary_index0 stats "leader_ranking";
                 result_best_pair := summary_index0 stats "best_pairs" |},
         snd step5)
    end.

Lemma no_signals_no_pairs (raw : list Bar) (prm : Params) :
  fst (identify_leader_signals (money_multiplier prm) (min_amount prm)
         (min_price_change prm)
         (calculate_price_movements (load_data raw init_analyzer))) = 0 ->
  run_pairs raw prm = [].
Proof.
  intros H0.
  change (fst (identify_leader_signals (money_multiplier prm) (min_amount prm)
                 (min_price_change prm)
                 (calculate_price_movements (load_data raw init_analyzer))))
    with (fold_left
            (fun acc sym =>
               acc + count_true leader_signal (stock_data sym (data (flagged raw prm))))
            (stocks (flagged raw prm)) 0) in H0.
  rewrite count_over_stocks in H0.
  - unfold run_pairs. rewrite analyze_fst. unfold leader_follower_pairs.
    unfold count_true in H0.
    destruct (filter leader_signal (data (flagged raw prm))); [reflexivity|].
    simpl in H0. lia.
  - rewrite flagged_stocks. apply load_data_stocks_NoDup.
  - apply flagged_symbol_in_stocks.
Qed.

Lemma analyze_snd_results (lag : Z) (mg : Q) (self : Analyzer) :
  res_statistics (results (snd (analyze_leader_follower_relationships lag mg self)))
  = res_statistics (results self).
Proof.
  unfold analyze_leader_follower_relationships.
  destruct (leader_follower_pairs _ _ _ _); reflexivity.
Qed.

(** A run with pairs reaches the summary. *)
Lemma run_complete_analysis_some (sv : SortValues) (raw : list Bar) (prm : Params) :
  run_pairs raw prm <> [] ->
  exists res, fst (run_complete_analysis sv raw prm) = Some res.
Proof.
  intros Hne. unfold run_complete_analysis. fold (flagged raw prm).
  pose proof (no_signals_no_pairs raw prm) as Hzero.
  destruct (Z.eqb_spec
              (fst (identify_leader_signals (money_multiplier prm) (min_amount prm)
                      (min_price_change prm)
                      (calculate_price_movements (load_data raw init_analyzer)))) 0)
    as [H0|_]; [tauto|].
  fold (run_pairs raw prm).
  destruct (run_pairs raw prm) as [|p ps]; [congruence|].
  eexists. reflexivity.
Qed.

(** X10.  On an input with at least one bar within trading hours,
    [run_complete_analysis] returns [None] exactly when the run has no pair
    (no signal, or no response), and then no statistics are stored.
    Otherwise it returns the frame of pairs and the statistics computed from
    it, with [total_pairs] the number of pairs, and both are stored in
    [self.results]: the aggregator never sees an empty frame in a run.
    (With no bar kept the run ends in the [KeyError] of step 3.) *)
Theorem run_complete_analysis_result (sv : SortValues) (raw : list Bar) (prm : Params) :
  filter trading_mask raw <> [] ->
  let out := run_complete_analysis sv raw prm in
  (run_pairs raw prm = [] ->
     fst out = None /\ res_statistics (results (snd out)) = None)
  /\ (run_pairs raw prm <> [] ->
        exists res,
          fst out = Some res
          /\ result_pairs_df res = run_pairs raw prm
          /\ result_statistics res
             = fst (calculate_success_rates sv (run_pairs raw prm) (snd out))
          /\ dict_get "total_pairs" (result_statistics res)
             = Some (VCount (Z.of_nat (List.length (run_pairs raw prm))))
          /\ res_statistics (results (snd out)) = Some (result_statistics res)
          /\ res_leader_follower_pairs (results (snd out)) = Some (run_pairs raw prm)).
Proof.
  intros _ out. subst out. unfold run_complete_analysis.
  fold (flagged raw prm).
  set (count := fst (identify_leader_signals (money_multiplier prm) (min_amount prm)
                       (min_price_change prm)
                       (calculate_price_movements (load_data raw init_analyzer)))).
  pose proof (no_signals_no_pairs raw prm) as Hzero. fold count in Hzero.
  fold (run_pairs raw prm).
  pose proof (analyze_snd_results (max_lag_minutes prm) (min_gain prm) (flagged raw prm))
    as Hres.
  split.
  - intros Hnil. destruct (Z.eqb_spec count 0); [split; reflexivity|].
    rewrite Hnil. cbn [fst snd]. split; [reflexivity|].
    unfold run_pairs in Hnil. fold (run_pairs raw prm). rewrite Hres. reflexivity.
  - intros Hne. destruct (Z.eqb_spec count 0) as [H0|_]; [tauto|].
    unfold run_pairs in *.
    unfold analyze_leader_follower_relationships in *.
    destruct (leader_follower_pairs (data (flagged raw prm)) (stocks (flagged raw prm))
                (max_lag_minutes prm) (min_gain prm)) as [|p ps] eqn:E;
      [simpl in Hne; congruence|].
    simpl. eexists. repeat split.
Qed.

Lemma run_complete_analysis_result_witness :
  exists res,
    fst (run_complete_analysis stable_sort_values ex_raw ex_params) = Some res
    /\ result_pairs_df res = [ex_pair].
Proof.
  assert (Hkept : filter trading_mask ex_raw <> []) by (vm_compute; discriminate).
  assert (H : run_pairs ex_raw ex_params <> []) by (vm_compute; discriminate).
  destruct (proj2 (run_complete_analysis_result stable_sort_values ex_raw ex_params
                     Hkept) H)
    as [res [H1 [H2 _]]].
  exists res. split; [exact H1|]. rewrite H2. vm_compute. reflexivity.
Defined.

(** The first row of a ranking table has the highest count. *)
Lemma ranking_head_is_top (key : Pair -> list string) (pairs : list Pair)
    (t : list RankRow) :
  Ranking key pairs t -> pairs <> [] ->
  exists row rest,
    t = row :: rest
    /\ In (rank_key row) (map key pairs)
    /\ rank_count row = pairs_with_key key (rank_key row) pairs
    /\ forall q, In q pairs ->
         pairs_with_key key (key q) pairs <= rank_count row.
Proof.
  intros [Hdesc _ Hkeys Hcounts] Hne.
  destruct t as [|row rest].
  - destruct pairs as [|p ps]; [congruence|]. exfalso.
    apply (proj2 (Hkeys (key p))). left. reflexivity.
  - exists row, rest. split; [reflexivity|]. split; [|split].
    + apply Hkeys. left. reflexivity.
    + apply Hcounts. left. reflexivity.
    + intros q Hq.
      assert (Hin : In (key q) (map rank_key (row :: rest)))
        by (apply Hkeys; apply in_map; exact Hq).
      apply in_map_iff in Hin. destruct Hin as [rq [Hkq Hrq]].
      rewrite <- Hkq, <- (Hcounts rq Hrq).
      destruct Hrq as [<-|Hrq]; [lia|].
      inversion Hdesc as [|? ? _ Hall]; subst.
      rewrite Forall_forall in Hall. exact (Hall rq Hrq).
Qed.

(** X11.  When a run has pairs, the best leader of its summary is the leader
    of some pair and no leader has more pairs; the best pair is the (leader,
    follower) of some pair and no such couple has more pairs. *)
Theorem run_summary_names_the_top (sv : SortValues) (raw : list Bar) (prm : Params) :
  run_pairs raw prm <> [] ->
  let pairs := run_pairs raw prm in
  exists res leader couple,
    fst (run_complete_analysis sv raw prm) = Some res
    /\ result_best_leader res = Some [leader]
    /\ (exists p, In p pairs /\ leader_symbol p = leader)
    /\ (forall q, In q pairs ->
          pairs_with_key (fun p => [leader_symbol p]) [leader_symbol q] pairs
          <= pairs_with_key (fun p => [leader_symbol p]) [leader] pairs)
    /\ result_best_pair res = Some couple
    /\ (exists p, In p pairs /\ [leader_symbol p; follower_symbol p] = couple)
    /\ (forall q, In q pairs ->
          pairs_with_key (fun p => [leader_symbol p; follower_symbol p])
            [leader_symbol q; follower_symbol q] pairs
          <= pairs_with_key (fun p => [leader_symbol p; follower_symbol p])
               couple pairs).
Proof.
  intros Hne pairs.
  destruct (run_complete_analysis_some sv raw prm Hne) as [res Hres].
  pose proof Hres as Hres0.
  unfold run_complete_analysis in Hres. fold (flagged raw prm) in Hres.
  destruct (Z.eqb _ 0) in Hres; [discriminate|].
  fold (run_pairs raw prm) in Hres. fold pairs in Hres, Hne.
  destruct pairs as [|p0 ps] eqn:Epairs; [congruence|].
  injection Hres as Hres. rewrite <- Epairs in *.
  destruct (ranking_head_is_top _ pairs _
              (sorted_groupby_ranking sv (fun p => [leader_symbol p])
                 [time_lag_minutes; follower_gain_pct; leader_large_total] pairs) Hne)
    as [rowL [restL [HtL [HinL [HcL HtopL]]]]].
  destruct (ranking_head_is_top _ pairs _
              (sorted_groupby_ranking sv
                 (fun p => [leader_symbol p; follower_symbol p])
                 [time_lag_minutes; follower_gain_pct] pairs) Hne)
    as [rowP [restP [HtP [HinP [HcP HtopP]]]]].
  apply in_map_iff in HinL. destruct HinL as [pl [HkL HplIn]].
  apply in_map_iff in HinP. destruct HinP as [pp [HkP HppIn]].
  exists res, (leader_symbol pl), (rank_key rowP).
  split; [exact Hres0|].
  assert (HbestL : result_best_leader res = Some (rank_key rowL)).
  { rewrite <- Hres. cbn [result_best_leader]. rewrite Epairs.
    unfold summary_index0, calculate_success_rates. cbn [fst dict_get String.eqb].
    rewrite <- Epairs. unfold leader_ranking. simpl. rewrite HtL. reflexivity. }
  assert (HbestP : result_best_pair res = Some (rank_key rowP)).
  { rewrite <- Hres. cbn [result_best_pair]. rewrite Epairs.
    unfold summary_index0, calculate_success_rates. cbn [fst dict_get String.eqb].
    rewrite <- Epairs. unfold best_pairs. simpl. rewrite HtP. reflexivity. }
  split; [rewrite HbestL, <- HkL; reflexivity|].
  split; [exists pl; tauto|].
  split; [intros q Hq; rewrite HkL, <- HcL; exact (HtopL q Hq)|].
  split; [exact HbestP|].
  split; [exists pp; tauto|].
  intros q Hq. rewrite <- HcP. exact (HtopP q Hq).
Qed.

Lemma run_summary_names_the_top_witness :
  exists res,
    fst (run_complete_analysis stable_sort_values ex_raw ex_params) = Some res
    /\ result_best_leader res = Some ["A"%string]
    /\ result_best_pair res = Some ["A"%string; "B"%string].
Proof.
  assert (H : run_pairs ex_raw ex_params <> []) by (vm_compute; discriminate).
  destruct (run_summary_names_the_top stable_sort_values ex_raw ex_params H)
    as [res [leader [couple [H1 _]]]].
  exists res. split; [exact H1|].
  assert (E : fst (run_complete_analysis stable_sort_values ex_raw ex_params)
              = Some {| result_pairs_df := [ex_pair];
                        result_statistics :=
                          fst (calculate_success_rates stable_sort_values [ex_pair]
                                 (flagged ex_raw ex_params));
                        result_best_leader := Some ["A"%string];
                        result_best_pair := Some ["A"%string; "B"%string] |})
    by (vm_compute; reflexivity).
  rewrite E in H1. injection H1 as <-. split; reflexivity.
Defined.

(** ** [filter_active_stocks] (sector analyzer) *)

(** The activity score of a stock: its pairs as leader, weighted 1.5, plus
    its pairs as follower. *)
Definition activity (pairs_df : list Pair) (stock : string) : Q :=
  let leader_count :=
    List.length (filter (fun p => String.eqb (leader_symbol p) stock) pairs_df) in
  let follower_count :=
    List.length (filter (fun p => String.eqb (follower_symbol p) stock) pairs_df) in
  (inject_Z (Z.of_nat leader_count) * (3 # 2) + inject_Z (Z.of_nat follower_count))%Q.

(** The order of [sorted(..., key=lambda x: x[1], reverse=True)]; the sort is
    stable. *)
Definition activity_geb (x y : string * Q) : bool := Qle_bool (snd y) (snd x).

Definition all_stocks_raw (pairs_df : list Pair) : list string :=
  stable_sort String.leb
    (unique String.eqb (map leader_symbol pairs_df ++ map follower_symbol pairs_df)).

Definition isin (selected : list string) (s : string) : bool :=
  existsb (String.eqb s) selected.

Definition filter_active_stocks (pairs_df : list Pair) (max_stocks : nat)
    : list string * list Pair :=
  match pairs_df with
  | [] => ([], pairs_df)
  | _ :: _ =>
      let active_stocks := all_stocks_raw pairs_df in
      let selected_stocks :=
        if (max_stocks <? List.length active_stocks)%nat then
          let stock_activity :=
            map (fun stock => (stock, activity pairs_df stock)) active_stocks in
          let top_stocks := firstn max_stocks (stable_sort activity_geb stock_activity) in
          map fst top_stocks
        else active_stocks in
      let pairs_df_filtered :=
        filter (fun p => isin selected_stocks (leader_symbol p)
                         && isin selected_stocks (follower_symbol p)) pairs_df in
      (selected_stocks, pairs_df_filtered)
  end.

Lemma isin_In (selected : list string) (s : string) :
  isin selected s = true <-> In s selected.
Proof. apply (existsb_eqb String.eqb String.eqb_eq). Qed.

Lemma all_stocks_raw_In (pairs_df : list Pair) (s : string) :
  In s (all_stocks_raw pairs_df) <->
  exists p, In p pairs_df /\ (leader_symbol p = s \/ follower_symbol p = s).
Proof.
  unfold all_stocks_raw.
  rewrite stable_sort_In, (unique_In String.eqb String.eqb_eq), in_app_iff, !in_map_iff.
  split.
  - intros [[p [H Hp]]|[p [H Hp]]]; exists p; tauto.
  - intros [p [Hp [H|H]]]; [left|right]; exists p; tauto.
Qed.

Lemma all_stocks_raw_NoDup (pairs_df : list Pair) : NoDup (all_stocks_raw pairs_df).
Proof.
  unfold all_stocks_raw.
  eapply Permutation_NoDup; [apply stable_sort_perm|].
  apply (unique_NoDup String.eqb String.eqb_eq).
Qed.

Lemma filter_all_true {A : Type} (f : A -> bool) (l : list A) :
  (forall x, In x l -> f x = true) -> filter f l = l.
Proof.
  induction l as [|x l IH]; intros H; simpl; [reflexivity|].
  rewrite (H x (or_introl eq_refl)), IH; [reflexivity|].
  intros y Hy. apply H. right. exact Hy.
Qed.

(** X12.  On an empty frame [filter_active_stocks] returns no stock and the
    empty frame.  When the stocks that occur in the pairs are at most
    [max_stocks], it selects all of them, each once in ascending order, and
    removes no pair. *)
Theorem filter_active_stocks_within_limit (pairs_df : list Pair) (max_stocks : nat) :
  filter_active_stocks [] max_stocks = ([], [])
  /\ ((List.length (all_stocks_raw pairs_df) <= max_stocks)%nat ->
      pairs_df <> [] ->
      filter_active_stocks pairs_df max_stocks = (all_stocks_raw pairs_df, pairs_df)).
Proof.
  split; [reflexivity|]. intros Hlen Hne.
  destruct pairs_df as [|p ps]; [congruence|].
  unfold filter_active_stocks.
  destruct (Nat.ltb_spec max_stocks (List.length (all_stocks_raw (p :: ps)))); [lia|].
  f_equal. apply filter_all_true. intros q Hq.
  apply andb_true_iff. split; apply isin_In; apply all_stocks_raw_In; exists q; tauto.
Qed.

Lemma filter_active_stocks_within_limit_witness :
  filter_active_stocks ex_tied_pairs 9 = (["A"; "B"]%string, ex_tied_pairs).
Proof.
  assert (H : all_stocks_raw ex_tied_pairs = ["A"; "B"]%string)
    by (vm_compute; reflexivity).
  rewrite <- H.
  apply (proj2 (filter_active_stocks_within_limit ex_tied_pairs 9)).
  - rewrite H. simpl. lia.
  - discriminate.
Defined.

Lemma NoDup_firstn {A : Type} (n : nat) (l : list A) : NoDup l -> NoDup (firstn n l).
Proof.
  intros H. rewrite <- (firstn_skipn n l) in H.
  apply NoDup_app_remove_r in H. exact H.
Qed.

Lemma In_firstn {A : Type} (n : nat) (l : list A) (x : A) : In x (firstn n l) -> In x l.
Proof.
  intros H. rewrite <- (firstn_skipn n l). apply in_or_app. left. exact H.
Qed.

Lemma stock_activity_fst (pairs_df : list Pair) (stocks_list : list string) :
  map fst (map (fun stock => (stock, activity pairs_df stock)) stocks_list) = stocks_list.
Proof. rewrite map_map. simpl. apply map_id. Qed.

(** The stocks that [filter_active_stocks] selects. *)
Definition selected_stocks_of (pairs_df : list Pair) (max_stocks : nat) : list string :=
  fst (filter_active_stocks pairs_df max_stocks).

Lemma selected_stocks_sub (pairs_df : list Pair) (max_stocks : nat) (s : string) :
  In s (selected_stocks_of pairs_df max_stocks) -> In s (all_stocks_raw pairs_df).
Proof.
  unfold selected_stocks_of, filter_active_stocks.
  destruct pairs_df as [|p ps]; [intros []|]. cbn [fst].
  destruct (max_stocks <? _)%nat; [|tauto].
  intros H. apply in_map_iff in H. destruct H as [[s' q] [<- H]].
  apply In_firstn in H. apply (proj1 (stable_sort_In activity_geb _ _)) in H.
  apply in_map_iff in H. destruct H as [s0 [E H]]. injection E as <- _. exact H.
Qed.

(** X13.  [filter_active_stocks] selects at most [max_stocks] of the stocks
    that occur in the pairs (exactly [max_stocks] when there are more), none
    twice; it keeps exactly the pairs whose leader and follower are both
    selected, in their order. *)
Theorem filter_active_stocks_selection (pairs_df : list Pair) (max_stocks : nat) :
  pairs_df <> [] ->
  let selected := fst (filter_active_stocks pairs_df max_stocks) in
  let kept := snd (filter_active_stocks pairs_df max_stocks) in
  List.length selected = Nat.min max_stocks (List.length (all_stocks_raw pairs_df))
  /\ NoDup selected
  /\ (forall s, In s selected ->
        exists p, In p pairs_df /\ (leader_symbol p = s \/ follower_symbol p = s))
  /\ kept = filter (fun p => isin selected (leader_symbol p)
                             && isin selected (follower_symbol p)) pairs_df
  /\ (forall p, In p kept <->
        In p pairs_df /\ In (leader_symbol p) selected /\ In (follower_symbol p) selected).
Proof.
  intros Hne selected kept.
  assert (Hsub : forall s, In s selected -> In s (all_stocks_raw pairs_df))
    by (apply selected_stocks_sub).
  subst selected kept. destruct pairs_df as [|p ps]; [congruence|].
  unfold filter_active_stocks in *. cbn [fst snd] in *.
  set (all := all_stocks_raw (p :: ps)) in *.
  set (sorted := stable_sort activity_geb
                   (map (fun stock => (stock, activity (p :: ps) stock)) all)) in *.
  assert (Hperm : Permutation all (map fst sorted)).
  { rewrite <- (stock_activity_fst (p :: ps) all) at 1.
    apply Permutation_map. apply stable_sort_perm. }
  split; [|split; [|split; [|split]]].
  - destruct (Nat.ltb_spec max_stocks (List.length all)) as [Hlt|Hge].
    + rewrite length_map, length_firstn.
      rewrite <- (length_map fst sorted), <- (Permutation_length Hperm). lia.
    + lia.
  - destruct (max_stocks <? List.length all)%nat.
    + rewrite <- firstn_map. apply NoDup_firstn.
      eapply Permutation_NoDup; [exact Hperm|apply all_stocks_raw_NoDup].
    + apply all_stocks_raw_NoDup.
  - intros s Hs. apply all_stocks_raw_In. apply Hsub. exact Hs.
  - reflexivity.
  - intros q. rewrite filter_In, andb_true_iff, !isin_In. tauto.
Qed.

Lemma filter_active_stocks_selection_witness :
  List.length (fst (filter_active_stocks ex_many_leaders 9)) = 9%nat
  /\ NoDup (fst (filter_active_stocks ex_many_leaders 9)).
Proof.
  assert (Hne : ex_many_leaders <> []) by discriminate.
  destruct (filter_active_stocks_selection ex_many_leaders 9 Hne) as [H1 [H2 _]].
  split; [|exact H2]. rewrite H1. vm_compute. reflexivity.
Defined.

Lemma activity_geb_total (x y : string * Q) :
  activity_geb x y = true \/ activity_geb y x = true.
Proof.
  unfold activity_geb. rewrite !Qle_bool_iff.
  destruct (Qlt_le_dec (snd x) (snd y)); [right|left]; [apply Qlt_le_weak|]; assumption.
Qed.

Lemma activity_geb_trans (x y z : string * Q) :
  activity_geb x y = true -> activity_geb y z = true -> activity_geb x z = true.
Proof.
  unfold activity_geb. rewrite !Qle_bool_iff. intros H1 H2.
  exact (Qle_trans _ _ _ H2 H1).
Qed.

Lemma StronglySorted_app_cross {A : Type} (R : A -> A -> Prop) (l1 l2 : list A) :
  StronglySorted R (l1 ++ l2) -> forall a b, In a l1 -> In b l2 -> R a b.
Proof.
  induction l1 as [|x l1 IH]; simpl; intros Hs a b Ha Hb; [destruct Ha|].
  inversion Hs as [|? ? Hs' Hall]; subst. destruct Ha as [<-|Ha].
  - rewrite Forall_forall in Hall. apply Hall. apply in_or_app. right. exact Hb.
  - exact (IH Hs' a b Ha Hb).
Qed.

(** X14.  When there are more stocks than [max_stocks], no stock that is
    left out is more active than a selected one. *)
Theorem dropped_stocks_are_less_active (pairs_df : list Pair) (max_stocks : nat)
    (dropped kept : string) :
  (max_stocks < List.length (all_stocks_raw pairs_df))%nat ->
  In dropped (all_stocks_raw pairs_df) ->
  ~ In dropped (fst (filter_active_stocks pairs_df max_stocks)) ->
  In kept (fst (filter_active_stocks pairs_df max_stocks)) ->
  (activity pairs_df dropped <= activity pairs_df kept)%Q.
Proof.
  intros Hmore Hall Hout Hin.
  destruct pairs_df as [|p ps]; [destruct Hin|].
  unfold filter_active_stocks in *. cbn [fst] in *.
  set (all := all_stocks_raw (p :: ps)) in *.
  set (sa := map (fun stock => (stock, activity (p :: ps) stock)) all) in *.
  set (sorted := stable_sort activity_geb sa) in *.
  destruct (Nat.ltb_spec max_stocks (List.length all)) as [_|Hge]; [|lia].
  assert (Hsa : forall s q, In (s, q) sorted -> q = activity (p :: ps) s).
  { intros s q H. apply (proj1 (stable_sort_In activity_geb _ _)) in H.
    apply in_map_iff in H. destruct H as [s0 [E _]]. injection E as <- <-. reflexivity. }
  assert (Hsorted : StronglySorted (fun a b => activity_geb a b = true)
                      (firstn max_stocks sorted ++ skipn max_stocks sorted)).
  { rewrite firstn_skipn.
    apply stable_sort_sorted; [apply activity_geb_total|apply activity_geb_trans]. }
  apply in_map_iff in Hin. destruct Hin as [[k qk] [Ek Hk]]. simpl in Ek. subst k.
  assert (Hd : In (dropped, activity (p :: ps) dropped) (skipn max_stocks sorted)).
  { assert (H : In (dropped, activity (p :: ps) dropped) sorted).
    { apply (stable_sort_In activity_geb). apply in_map_iff. exists dropped. tauto. }
    rewrite <- (firstn_skipn max_stocks sorted) in H. apply in_app_or in H.
    destruct H as [H|H]; [|exact H]. exfalso. apply Hout.
    apply in_map_iff. exists (dropped, activity (p :: ps) dropped). tauto. }
  pose proof (StronglySorted_app_cross _ _ _ Hsorted _ _ Hk Hd) as Hle.
  unfold activity_geb in Hle. apply Qle_bool_iff in Hle. simpl in Hle.
  rewrite (Hsa kept qk (In_firstn _ _ _ Hk)) in Hle. exact Hle.
Qed.

Lemma dropped_stocks_are_less_active_witness :
  (activity ex_many_leaders "S18" <= activity ex_many_leaders "Z")%Q.
Proof.
  apply (dropped_stocks_are_less_active ex_many_leaders 9 "S18" "Z").
  - vm_compute. lia.
  - vm_compute. tauto.
  - vm_compute. intros H.
    repeat (destruct H as [H|H]; [discriminate H|]). exact H.
  - vm_compute. tauto.
Defined.

(** ** The success-rate matrix of [create_leader_follower_relation_chart] *)

Definition pair_data (pairs_df : list Pair) (leader follower : string) : list Pair :=
  filter (fun p => String.eqb (leader_symbol p) leader
                   && String.eqb (follower_symbol p) follower) pairs_df.

(** One cell of [success_matrix]: zero on the diagonal and where the couple
    has no pair, else half the mean gain, capped at 1. *)
Definition success_rate (pairs_df : list Pair) (leader follower : string) : Q :=
  if String.eqb leader follower then 0%Q
  else
    match pair_data pairs_df leader follower with
    | [] => 0%Q
    | _ :: _ =>
        let avg_gain := qmean (map follower_gain_pct (pair_data pairs_df leader follower)) in
        qmin (avg_gain / 2) 1
    end.

Lemma filter_active_stocks_kept_In (pairs_df : list Pair) (max_stocks : nat) (p : Pair) :
  In p (snd (filter_active_stocks pairs_df max_stocks)) -> In p pairs_df.
Proof.
  unfold filter_active_stocks. destruct pairs_df as [|q qs]; [tauto|].
  cbn [snd]. intros H. apply filter_In in H. tauto.
Qed.

Lemma run_pair_facts (raw : list Bar) (prm : Params) (p : Pair) :
  In p (run_pairs raw prm) ->
  follower_symbol p <> leader_symbol p /\ (min_gain prm <= follower_gain_pct p)%Q.
Proof.
  intros Hp. apply run_pairs_In in Hp.
  destruct Hp as [signal [f [_ [_ [_ Hm]]]]].
  apply match_follower_Some in Hm. destruct Hm as [base_row [first_gain M]].
  destruct (matched_first_passage _ _ _ _ _ _ _ _ (flagged_sorted raw prm) M)
    as [[_ [_ [_ Hgain]]] _].
  rewrite (matched_gain _ _ _ _ _ _ _ _ M), (matched_follower_symbol _ _ _ _ _ _ _ _ M),
          (matched_leader_symbol _ _ _ _ _ _ _ _ M).
  split; [exact (matched_other _ _ _ _ _ _ _ _ M)|exact Hgain].
Qed.

Lemma qmin_le_r (x y : Q) : (qmin x y <= y)%Q.
Proof.
  unfold qmin. destruct (Qle_bool x y) eqn:E.
  - apply Qle_bool_iff. exact E.
  - apply Qle_refl.
Qed.

Lemma qmin_le_l (x y : Q) : (qmin x y <= x)%Q.
Proof.
  unfold qmin. destruct (Qle_bool x y) eqn:E.
  - apply Qle_refl.
  - apply Qlt_le_weak. apply Qnot_le_lt. intros H.
    apply Qle_bool_iff in H. congruence.
Qed.

Lemma qmin_pos (x y : Q) : (0 < x)%Q -> (0 < y)%Q -> (0 < qmin x y)%Q.
Proof. unfold qmin. destruct (Qle_bool x y); tauto. Qed.

(** X15.  With a positive floor [min_gain], every cell of the success-rate
    matrix drawn from the pairs of a run lies in [0, 1], and it is positive
    exactly for the couples (leader, follower) that have a pair among the
    pairs kept by [filter_active_stocks]. *)
Theorem success_rate_range (raw : list Bar) (prm : Params) (max_stocks : nat)
    (leader follower : string) :
  (0 < min_gain prm)%Q ->
  let kept := snd (filter_active_stocks (run_pairs raw prm) max_stocks) in
  (0 <= success_rate kept leader follower)%Q
  /\ (success_rate kept leader follower <= 1)%Q
  /\ ((0 < success_rate kept leader follower)%Q <->
      exists p, In p kept /\ leader_symbol p = leader /\ follower_symbol p = follower).
Proof.
  intros Hmg kept.
  assert (Hkept : forall p, In p kept ->
            follower_symbol p <> leader_symbol p /\ (0 < follower_gain_pct p)%Q).
  { intros p Hp. apply filter_active_stocks_kept_In in Hp.
    destruct (run_pair_facts raw prm p Hp) as [H1 H2].
    split; [exact H1|]. eapply Qlt_le_trans; [exact Hmg|exact H2]. }
  assert (Hdata : forall p, In p (pair_data kept leader follower) <->
            In p kept /\ leader_symbol p = leader /\ follower_symbol p = follower).
  { intros p. unfold pair_data.
    rewrite filter_In, andb_true_iff, !String.eqb_eq. tauto. }
  unfold success_rate.
  destruct (String.eqb_spec leader follower) as [Heq|Hne].
  - split; [apply Qle_refl|]. split; [discriminate|]. split.
    + intros H. discriminate H.
    + intros [p [Hp [Hl Hf]]]. exfalso.
      apply (proj1 (Hkept p Hp)). congruence.
  - destruct (pair_data kept leader follower) as [|q qs] eqn:E.
    + split; [apply Qle_refl|]. split; [discriminate|]. split.
      * intros H. discriminate H.
      * intros [p [Hp Hlf]]. exfalso. apply (proj2 (Hdata p)). tauto.
    + assert (Hmean : (0 < qmean (map follower_gain_pct (q :: qs)))%Q).
      { apply (qmean_gt 0 (follower_gain_pct q) (map follower_gain_pct qs)).
        change (Forall (fun y => (0 < y)%Q) (map follower_gain_pct (q :: qs))).
        apply Forall_forall. intros y Hy. apply in_map_iff in Hy.
        destruct Hy as [p [<- Hp]]. apply Hdata in Hp.
        apply (Hkept p). tauto. }
      assert (Hhalf : (0 < qmean (map follower_gain_pct (q :: qs)) / 2)%Q).
      { apply Qlt_shift_div_l; [reflexivity|]. rewrite Qmult_0_l. exact Hmean. }
      assert (Hpos : (0 < qmin (qmean (map follower_gain_pct (q :: qs)) / 2) 1)%Q)
        by (apply qmin_pos; [exact Hhalf|reflexivity]).
      split; [apply Qlt_le_weak; exact Hpos|]. split; [apply qmin_le_r|]. split.
      * intros _. exists q. apply Hdata. left. reflexivity.
      * intros _. exact Hpos.
Qed.

Lemma success_rate_range_witness :
  (0 < success_rate (snd (filter_active_stocks (run_pairs ex_raw ex_params) 9)) "A" "B")%Q
  /\ (success_rate (snd (filter_active_stocks (run_pairs ex_raw ex_params) 9)) "A" "B"
      <= 1)%Q.
Proof.
  assert (Hmg : (0 < min_gain ex_params)%Q) by reflexivity.
  destruct (success_rate_range ex_raw ex_params 9 "A" "B" Hmg) as [_ [H1 H2]].
  split; [|exact H1].
  apply H2. exists ex_pair. vm_compute. tauto.
Defined.

(** ** [calculate_price_movements]: what the columns hold *)

Lemma with_series_In (all hist rest : list Row) (x : Row) :
  In x (with_series all hist rest) ->
  exists r0 h, In r0 rest /\ x = set_series r0 (series_at all h r0).
Proof.
  revert hist. induction rest as [|r rest IH]; intros hist; simpl; [tauto|].
  intros [<-|H].
  - exists r, hist. split; [left|]; reflexivity.
  - destruct (IH _ H) as [r0 [h [Hin Hx]]]. exists r0, h. split; [right|]; assumption.
Qed.

(** A row of a run, as the loaded row it comes from with its columns. *)
Lemma flagged_row_origin (raw : list Bar) (prm : Params) (r : Row) :
  In r (data (flagged raw prm)) ->
  exists r0 h,
    In r0 (stock_data (row_symbol r) (data (load_data raw init_analyzer)))
    /\ bar r = bar r0
    /\ large_net r = large_net r0
    /\ large_total r = large_total r0
    /\ series r
       = Some (series_at (stock_data (row_symbol r) (data (load_data raw init_analyzer)))
                 h r0).
Proof.
  intros Hr.
  assert (H : In r (stock_data (row_symbol r) (data (flagged raw prm))))
    by (apply stock_data_In; tauto).
  rewrite flagged_stock_data in H. apply in_map_iff in H.
  destruct H as [x [Hx Hin]]. apply with_series_In in Hin.
  destruct Hin as [r0 [h [Hr0 ->]]].
  exists r0, h. split; [exact Hr0|].
  split; [symmetry; exact (f_equal bar Hx)|].
  split; [symmetry; exact (f_equal large_net Hx)|].
  split; [symmetry; exact (f_equal large_total Hx)|].
  symmetry. exact (f_equal series Hx).
Qed.

Lemma fold_qmin_le_init (xs : list Q) (x : Q) : (fold_left qmin xs x <= x)%Q.
Proof.
  revert x. induction xs as [|y xs IH]; intros x; simpl.
  - apply Qle_refl.
  - eapply Qle_trans; [apply IH|apply qmin_le_l].
Qed.

Lemma fold_qmin_le_In (xs : list Q) (x z : Q) :
  In z xs -> (fold_left qmin xs x <= z)%Q.
Proof.
  revert x. induction xs as [|y xs IH]; intros x Hz; simpl; [destruct Hz|].
  destruct Hz as [->|Hz].
  - eapply Qle_trans; [apply fold_qmin_le_init|apply qmin_le_r].
  - apply IH. exact Hz.
Qed.

Lemma fold_qmin_In (xs : list Q) (x : Q) : In (fold_left qmin xs x) (x :: xs).
Proof.
  revert x. induction xs as [|y xs IH]; intros x; simpl; [left; reflexivity|].
  destruct (IH (qmin x y)) as [H|H].
  - rewrite <- H. unfold qmin. destruct (Qle_bool x y); tauto.
  - right. right. exact H.
Qed.

Lemma qmax_list_le_iff (l : list Q) (c : Q) :
  l <> [] -> ((qmax_list l <= c)%Q <-> forall z, In z l -> (z <= c)%Q).
Proof.
  intros Hne. split.
  - intros H z Hz. eapply Qle_trans; [apply qmax_list_ge; exact Hz|exact H].
  - intros H. apply H. apply qmax_list_In. exact Hne.
Qed.

Lemma qmin_list_ge_iff (l : list Q) (c : Q) :
  l <> [] -> ((c <= qmin_list l)%Q <-> forall z, In z l -> (c <= z)%Q).
Proof.
  intros Hne. destruct l as [|x xs]; [congruence|]. simpl. split.
  - intros H z [<-|Hz].
    + eapply Qle_trans; [exact H|apply fold_qmin_le_init].
    + eapply Qle_trans; [exact H|apply fold_qmin_le_In; exact Hz].
  - intros H. apply H. apply fold_qmin_In.
Qed.

Lemma same_day_closes (raw : list Bar) (s : string) (r0 : Row) (z : Q) :
  In z (map row_close (same_day (stock_data s (data (load_data raw init_analyzer))) r0))
  <->
  exists b, In b raw /\ trading_mask b = true /\ symbol b = s
            /\ dt_date (datetime b) = dt_date (row_datetime r0)
            /\ close_price b = z.
Proof.
  rewrite in_map_iff. unfold same_day. split.
  - intros [x [Hz Hx]]. apply filter_In in Hx. destruct Hx as [Hx Hd].
    apply Z.eqb_eq in Hd. apply stock_data_In in Hx. destruct Hx as [Hx Hs].
    apply load_data_In in Hx. destruct Hx as [b [Hb [Hm ->]]].
    exists b. repeat split; assumption.
  - intros [b [Hb [Hm [Hs [Hd Hz]]]]]. exists (with_large_columns b).
    split; [exact Hz|]. apply filter_In. split; [|apply Z.eqb_eq; exact Hd].
    apply stock_data_In. split; [|exact Hs].
    apply load_data_In. exists b. tauto.
Qed.

(** X16.  In a run every row has its derived columns, and the daily ones are
    taken over the whole calendar day of the symbol: [is_daily_high] holds
    exactly when no in-hours bar of the symbol on that day, earlier or later,
    closes higher, [is_daily_low] exactly when none closes lower, and
    [daily_low <= close <= daily_high]. *)
Theorem daily_flags_span_the_day (raw : list Bar) (prm : Params) (r : Row) :
  In r (data (flagged raw prm)) ->
  let same_day_bar b :=
    In b raw /\ trading_mask b = true /\ symbol b = row_symbol r
    /\ dt_date (datetime b) = dt_date (row_datetime r) in
  exists s,
    series r = Some s
    /\ (daily_low s <= row_close r)%Q
    /\ (row_close r <= daily_high s)%Q
    /\ (is_daily_high s = true <->
        forall b, same_day_bar b -> (close_price b <= row_close r)%Q)
    /\ (is_daily_low s = true <->
        forall b, same_day_bar b -> (row_close r <= close_price b)%Q).
Proof.
  intros Hr same_day_bar.
  destruct (flagged_row_origin raw prm r Hr) as [r0 [h [Hr0 [Hbar [_ [_ Hs]]]]]].
  set (L := stock_data (row_symbol r) (data (load_data raw init_analyzer))) in *.
  assert (Hclose : row_close r = row_close r0) by (unfold row_close; rewrite Hbar; reflexivity).
  assert (Hdt : row_datetime r = row_datetime r0)
    by (unfold row_datetime; rewrite Hbar; reflexivity).
  assert (Hself : In (row_close r0) (map row_close (same_day L r0))).
  { apply in_map. apply filter_In. split; [exact Hr0|]. apply Z.eqb_refl. }
  assert (Hne : map row_close (same_day L r0) <> [])
    by (intros E; rewrite E in Hself; destruct Hself).
  assert (Hbars : forall z, In z (map row_close (same_day L r0)) <->
                    exists b, same_day_bar b /\ close_price b = z).
  { intros z. unfold L. rewrite same_day_closes. subst same_day_bar. rewrite Hdt.
    split; intros [b H]; exists b; tauto. }
  exists (series_at L h r0). split; [exact Hs|].
  cbn [series_at daily_low daily_high is_daily_high is_daily_low].
  rewrite Hclose. split; [|split; [|split]].
  - apply (proj1 (qmin_list_ge_iff _ _ Hne) (Qle_refl _)). exact Hself.
  - apply qmax_list_ge. exact Hself.
  - rewrite Qle_bool_iff, (qmax_list_le_iff _ _ Hne). split.
    + intros H b Hb. apply H. apply Hbars. exists b. tauto.
    + intros H z Hz. apply Hbars in Hz. destruct Hz as [b [Hb <-]]. exact (H b Hb).
  - rewrite Qle_bool_iff, (qmin_list_ge_iff _ _ Hne). split.
    + intros H b Hb. apply H. apply Hbars. exists b. tauto.
    + intros H z Hz. apply Hbars in Hz. destruct Hz as [b [Hb <-]]. exact (H b Hb).
Qed.

Lemma daily_flags_span_the_day_witness :
  let r := nth 1 (data (flagged ex_raw ex_params))
             (with_large_columns (mkBar "" 0 0 0 0 0 0)) in
  exists s, series r = Some s /\ (row_close r <= daily_high s)%Q.
Proof.
  intros r.
  assert (Hin : In r (data (flagged ex_raw ex_params))) by (vm_compute; tauto).
  destruct (daily_flags_span_the_day ex_raw ex_params r Hin) as [s [H1 [_ [H2 _]]]].
  exists s. split; assumption.
Defined.

(** ** [load_data]: what is loaded *)

Lemma string_leb_trans (a b c : string) :
  String.leb a b = true -> String.leb b c = true -> String.leb a c = true.
Proof.
  unfold String.leb.
  destruct (String.compare a b) eqn:Eab; try discriminate;
    destruct (String.compare b c) eqn:Ebc; try discriminate; intros _ _.
  - apply string_compare_eq in Eab. subst. rewrite Ebc. reflexivity.
  - apply string_compare_eq in Eab. subst. rewrite Ebc. reflexivity.
  - apply string_compare_eq in Ebc. subst. rewrite Eab. reflexivity.
  - rewrite (string_compare_lt_trans _ _ _ Eab Ebc). reflexivity.
Qed.

Lemma strings_sorted_strict (l : list string) :
  StronglySorted (fun a b => String.leb a b = true) l -> NoDup l ->
  StronglySorted (fun a b => String.compare a b = Lt) l.
Proof.
  induction 1 as [|x l Hs IH Hall]; intros Hnd; constructor;
    inversion Hnd as [|? ? Hnotin Hnd']; subst.
  - exact (IH Hnd').
  - rewrite Forall_forall in *. intros y Hy.
    specialize (Hall y Hy). unfold String.leb in Hall.
    destruct (String.compare x y) eqn:E; try discriminate; [|reflexivity].
    apply string_compare_eq in E. subst. contradiction.
Qed.

(** X17.  [load_data] keeps every in-hours bar exactly once and nothing
    else, in ascending order of (symbol, datetime); [large_total] and
    [large_net] are computed from the bar's own four amounts; [self.stocks]
    lists the symbols of the kept bars, each once, in strictly ascending
    order; [self.results] is not touched. *)
Theorem load_data_keeps_each_bar_once (raw : list Bar) (self : Analyzer) :
  let loaded := load_data raw self in
  Permutation (filter trading_mask raw) (map bar (data loaded))
  /\ StronglySorted (fun x y => symbol_datetime_leb x y = true) (data loaded)
  /\ (forall r, In r (data loaded) ->
        large_total r = (large_buy (bar r) + xlarge_buy (bar r))%Q
        /\ large_net r = ((large_buy (bar r) + xlarge_buy (bar r))
                          - (large_sell (bar r) + xlarge_sell (bar r)))%Q)
  /\ StronglySorted (fun s t => String.compare s t = Lt) (stocks loaded)
  /\ (forall s, In s (stocks loaded) <->
        exists b, In b raw /\ trading_mask b = true /\ symbol b = s)
  /\ results loaded = results self.
Proof.
  intros loaded. split; [|split; [|split; [|split; [|split]]]].
  - unfold loaded, load_data. cbn [data].
    rewrite <- (map_id (filter trading_mask raw)) at 1.
    rewrite <- (map_ext (fun b => bar (with_large_columns b)) (fun b => b))
      by reflexivity.
    rewrite <- (map_map with_large_columns bar).
    apply Permutation_map. apply stable_sort_perm.
  - apply stable_sort_sorted;
      [apply symbol_datetime_leb_total|apply symbol_datetime_leb_trans].
  - intros r Hr. apply load_data_In in Hr. destruct Hr as [b [_ [_ ->]]].
    split; reflexivity.
  - apply strings_sorted_strict.
    + apply stable_sort_sorted; [apply String.leb_total|apply string_leb_trans].
    + apply load_data_stocks_NoDup.
  - intros s. unfold loaded. rewrite load_data_stocks. split.
    + intros [r [Hr Hs]]. apply load_data_In in Hr. destruct Hr as [b [Hb [Hm ->]]].
      exists b. tauto.
    + intros [b [Hb [Hm Hs]]]. exists (with_large_columns b). split; [|exact Hs].
      apply load_data_In. exists b. tauto.
  - reflexivity.
Qed.

(** ** The later methods keep the loaded frame *)

(** The columns that [load_data] leaves in a row. *)
Definition loaded_columns (r : Row) : Bar * Q * Q := (bar r, large_net r, large_total r).

Lemma with_series_loaded (all hist rest : list Row) :
  map loaded_columns (with_series all hist rest) = map loaded_columns rest.
Proof.
  revert hist. induction rest as [|r rest IH]; intros hist; simpl.
  - reflexivity.
  - rewrite IH. reflexivity.
Qed.

Lemma loc_assign_loaded (sym : string) (d upd : list Row) :
  map loaded_columns upd = map loaded_columns (stock_data sym d) ->
  map loaded_columns (loc_assign sym d upd) = map loaded_columns d.
Proof.
  revert upd. induction d as [|r d IH]; intros upd H; simpl in *.
  - reflexivity.
  - destruct (String.eqb (row_symbol r) sym) eqn:E.
    + destruct upd as [|u upd]; simpl in H; [discriminate|].
      injection H as Hb Hn Ht Hrest. simpl.
      unfold loaded_columns at 1 3. rewrite Hb, Hn, Ht, (IH _ Hrest). reflexivity.
    + simpl. rewrite (IH _ H). reflexivity.
Qed.

Lemma fold_assign_loaded (syms : list string) (d : list Row) :
  map loaded_columns (fold_left assign_price_movements syms d) = map loaded_columns d.
Proof.
  revert d. induction syms as [|s syms IH]; intros d; simpl.
  - reflexivity.
  - rewrite IH. apply loc_assign_loaded. apply with_series_loaded.
Qed.

(** X18.  [calculate_price_movements] and [identify_leader_signals] add
    columns only: after them [self.data] has the rows of [load_data] in the
    same order with the same loaded columns, and [self.stocks] is the same
    list. *)
Theorem run_keeps_loaded_frame (raw : list Bar) (prm : Params) :
  map loaded_columns (data (flagged raw prm))
  = map loaded_columns (data (load_data raw init_analyzer))
  /\ stocks (flagged raw prm) = stocks (load_data raw init_analyzer).
Proof.
  split; [|reflexivity].
  rewrite flagged_data, map_map.
  rewrite (map_ext _ loaded_columns) by reflexivity.
  apply fold_assign_loaded.
Qed.

(** ** [pct_change] runs over the whole series of a symbol *)

Lemma with_series_consecutive (all hist rest pre post : list Row) (xa xb : Row) :
  with_series all hist rest = pre ++ xa :: xb :: post ->
  col_return_1min xb = Some (row_close xb / row_close xa - 1)%Q.
Proof.
  revert hist pre. induction rest as [|r rest IH]; intros hist pre H; simpl in H.
  - destruct pre; discriminate.
  - destruct pre as [|x pre]; simpl in H.
    + injection H as Ha Hb. destruct rest as [|r2 rest]; simpl in Hb; [discriminate|].
      injection Hb as Hb _. subst xa xb. reflexivity.
    + injection H as _ H. exact (IH _ _ H).
Qed.

(** X19.  In a run the [return_1min] of every row but the first of its symbol
    is taken over the row just before it in the symbol's series, whatever
    the dates of the two rows: the first bar of a day is compared with the
    last bar of the day before.  (The previous close is taken nonzero, where
    the float quotient is the rational one.) *)
Theorem return_is_over_previous_row (raw : list Bar) (prm : Params) (s : string)
    (pre post : list Row) (a b : Row) :
  stock_data s (data (flagged raw prm)) = pre ++ a :: b :: post ->
  ~ (row_close a == 0)%Q ->
  col_return_1min b = Some (row_close b / row_close a - 1)%Q.
Proof.
  rewrite flagged_stock_data. intros H _.
  apply map_eq_app in H. destruct H as [pre0 [rest0 [Hw [_ Hrest]]]].
  destruct rest0 as [|xa rest0]; simpl in Hrest; [discriminate|].
  injection Hrest as Ha Hrest.
  destruct rest0 as [|xb rest0]; simpl in Hrest; [discriminate|].
  injection Hrest as Hb _.
  apply with_series_consecutive in Hw.
  subst a b. exact Hw.
Qed.

(** Two days of A: the close of day one is 100, the first bar of day two
    opens the series at 110. *)
Definition ex_two_days : list Bar :=
  [ mkBar "A" (at_hm 13 30) 100 0 0 0 0;
    mkBar "A" (86400 + at_hm 9 1) 110 0 0 0 0 ].

Lemma return_is_over_previous_row_witness :
  let rows := stock_data "A" (data (flagged ex_two_days ex_params)) in
  map (fun r => dt_date (row_datetime r)) rows = [0; 1]
  /\ col_return_1min (nth 1 rows (with_large_columns (mkBar "" 0 0 0 0 0 0)))
     = Some (110 / 100 - 1)%Q.
Proof.
  split; [vm_compute; reflexivity|].
  set (d := with_large_columns (mkBar "" 0 0 0 0 0 0)).
  set (rows := stock_data "A" (data (flagged ex_two_days ex_params))).
  assert (E : rows = [] ++ nth 0 rows d :: nth 1 rows d :: [])
    by (vm_compute; reflexivity).
  assert (Hnz : ~ (row_close (nth 0 rows d) == 0)%Q)
    by (vm_compute; discriminate).
  rewrite (return_is_over_previous_row ex_two_days ex_params "A" [] []
             (nth 0 rows d) (nth 1 rows d) E Hnz).
  vm_compute. reflexivity.
Defined.

(** ** Lowering the floor *)

Lemma iloc_first_In {A : Type} (l : list A) (x : A) : iloc_first l = Some x -> In x l.
Proof.
  destruct l as [|y l]; simpl; [discriminate|].
  intros H. injection H as ->. left. reflexivity.
Qed.

Lemma match_follower_lower_floor (d : list Row) (lag : Z) (mg1 mg2 : Q) (signal : Row)
    (f : string) (p1 : Pair) :
  rows_sorted d -> (mg2 <= mg1)%Q ->
  match_follower d lag mg1 signal f = Some p1 ->
  exists p2,
    match_follower d lag mg2 signal f = Some p2
    /\ follower_base_price p2 = follower_base_price p1
    /\ follower_time p2 <= follower_time p1.
Proof.
  intros Hsorted Hle H1.
  apply match_follower_Some in H1. destruct H1 as [base_row [fg1 M1]].
  pose proof (matched_base _ _ _ _ _ _ _ _ M1) as Hbase.
  pose proof (iloc_first_In _ _ (matched_first _ _ _ _ _ _ _ _ M1)) as Hin1.
  apply significant_gains_In in Hin1. destruct Hin1 as [Hw Hg1].
  assert (Hin2 : In fg1 (significant_gains mg2 (row_close base_row)
                           (follower_window_data d f (row_datetime signal)
                              (row_datetime signal + timedelta_minutes lag)))).
  { apply significant_gains_In. split; [exact Hw|].
    eapply Qle_trans; [exact Hle|exact Hg1]. }
  destruct (match_follower d lag mg2 signal f) as [p2|] eqn:E2.
  - exists p2. split; [reflexivity|].
    apply match_follower_Some in E2. destruct E2 as [base_row2 [fg2 M2]].
    assert (Hsame : base_row2 = base_row).
    { pose proof (matched_base _ _ _ _ _ _ _ _ M2) as Hbase2.
      rewrite Hbase in Hbase2. injection Hbase2 as ->. reflexivity. }
    subst base_row2.
    rewrite (matched_base_price _ _ _ _ _ _ _ _ M2),
            (matched_base_price _ _ _ _ _ _ _ _ M1),
            (matched_follower_time _ _ _ _ _ _ _ _ M2),
            (matched_follower_time _ _ _ _ _ _ _ _ M1).
    split; [reflexivity|].
    destruct (iloc_first_sorted (fun a b => row_datetime a <= row_datetime b) _ fg2
                (significant_window_time_sorted d f _ _ mg2 (row_close base_row) Hsorted)
                (matched_first _ _ _ _ _ _ _ _ M2)) as [_ Hmin].
    destruct (Hmin fg1 Hin2) as [->|H]; [lia|exact H].
  - exfalso. unfold match_follower in E2.
    destruct (String.eqb_spec f (row_symbol signal)) as [Heq|_];
      [exact (matched_other _ _ _ _ _ _ _ _ M1 Heq)|].
    rewrite Hbase in E2.
    destruct (significant_gains mg2 _ _) as [|x l]; [destruct Hin2|].
    simpl in E2. discriminate.
Qed.

(** X20.  With the other parameters fixed, a lower floor [min_gain] loses no
    response: for every pair found at the higher floor, the same signal and
    follower give a pair at the lower floor, from the same base price and
    no later. *)
Theorem lower_floor_responds_no_later (raw : list Bar) (mm ma mpc : Q) (lag : Z)
    (mg1 mg2 : Q) (p1 : Pair) :
  (mg2 <= mg1)%Q ->
  In p1 (run_pairs raw (mkParams mm ma mpc lag mg1)) ->
  exists p2,
    In p2 (run_pairs raw (mkParams mm ma mpc lag mg2))
    /\ leader_symbol p2 = leader_symbol p1
    /\ leader_time p2 = leader_time p1
    /\ follower_symbol p2 = follower_symbol p1
    /\ follower_base_price p2 = follower_base_price p1
    /\ follower_time p2 <= follower_time p1.
Proof.
  intros Hle Hp. apply run_pairs_In in Hp.
  destruct Hp as [signal [f [Hin [Hflag [Hf Hm]]]]]. simpl in Hm.
  destruct (match_follower_lower_floor _ lag mg1 mg2 signal f p1
              (flagged_sorted raw (mkParams mm ma mpc lag mg1)) Hle Hm)
    as [p2 [Hm2 [Hb Ht]]].
  exists p2. split.
  - apply run_pairs_In. exists signal, f. repeat split; assumption.
  - pose proof (match_follower_Some _ _ _ _ _ _ Hm) as [b1 [g1 M1]].
    pose proof (match_follower_Some _ _ _ _ _ _ Hm2) as [b2 [g2 M2]].
    rewrite (matched_leader_symbol _ _ _ _ _ _ _ _ M1),
            (matched_leader_symbol _ _ _ _ _ _ _ _ M2),
            (matched_leader_time _ _ _ _ _ _ _ _ M1),
            (matched_leader_time _ _ _ _ _ _ _ _ M2),
            (matched_follower_symbol _ _ _ _ _ _ _ _ M1),
            (matched_follower_symbol _ _ _ _ _ _ _ _ M2).
    repeat split; assumption.
Qed.

(** In the worked run the floor 0.5 is met at 09:18 and the floor 0.25 already
    at 09:15. *)
Lemma lower_floor_responds_no_later_witness :
  exists p2,
    In p2 (run_pairs ex_raw (mkParams (13 # 10) 5000000 (3 # 1000) 30 (1 # 4)))
    /\ follower_time p2 <= follower_time ex_pair.
Proof.
  assert (H : In ex_pair
                (run_pairs ex_raw (mkParams (13 # 10) 5000000 (3 # 1000) 30 (1 # 2))))
    by (vm_compute; left; reflexivity).
  assert (Hle : (1 # 4 <= 1 # 2)%Q) by discriminate.
  destruct (lower_floor_responds_no_later ex_raw _ _ _ 30 (1 # 2) (1 # 4) ex_pair Hle H)
    as [p2 [H1 [_ [_ [_ [_ H2]]]]]].
  exists p2. split; assumption.
Defined.
